(** * zedToKittiDataset: a ZED recording converted to a KITTI-style dataset

    A shallow embedding of [zedToKittiDataset.py] and the properties of its
    output: the derived output directory, the frame-export loop with its
    zero-padded names and timestamp log, and the calibration file with the
    projection matrices P0 and P1.

    Python floats are IEEE 754 binary64 numbers; they are modelled with the
    executable specification [SpecFloat] of the standard library
    ([prec = 53], [emax = 1024]).  The file system is a finite map from
    paths to contents together with a set of directories, and every call
    the program makes on the outside world (camera handle, file system,
    image codec, standard output) is recorded, in order, in a trace. *)

From Stdlib Require Import ZArith NArith Ascii.
From Stdlib Require Import DecimalString DecimalN DecimalFacts DecimalPos.
From Stdlib Require Import SpecFloat.
From stdpp Require Import gmap strings list.

Local Open Scope Z_scope.

(** ** Strings *)

Module Str.

Definition newline : ascii := "010"%char.

(** The string ["\n"]. *)
Definition nl : string := String newline "".

(** [s.split(c)] for a separator of one character. *)
Fixpoint split_on (c : ascii) (s : string) : list string :=
  match s with
  | "" => [""]
  | String a s' =>
      if Ascii.eqb a c then "" :: split_on c s'
      else match split_on c s' with
           | t :: ts => String a t :: ts
           | [] => [String a ""]
           end
  end.

(** [c.join(l)]. *)
Fixpoint join_with (c : ascii) (l : list string) : string :=
  match l with
  | [] => ""
  | [t] => t
  | t :: l' => t +:+ String c (join_with c l')
  end.

Fixpoint occurs (c : ascii) (s : string) : bool :=
  match s with
  | "" => false
  | String a s' => Ascii.eqb a c || occurs c s'
  end.

Definition is_digit (a : ascii) : bool :=
  match Ascii.is_nat a with
  | Some _ => true
  | None => false
  end.

Fixpoint all_digits (s : string) : bool :=
  match s with
  | "" => true
  | String a s' => is_digit a && all_digits s'
  end.

(** The number of digits after the decimal point of a value written in
    fixed-point notation: an optional sign, at least one digit, a point
    and digits only. *)
Definition decimals (s : string) : option nat :=
  let s := match s with String "-" s' => s' | _ => s end in
  match split_on "." s with
  | [int_part; frac] =>
      if negb (String.eqb int_part "") && all_digits int_part && all_digits frac
      then Some (String.length frac)
      else None
  | _ => None
  end.

(** The lines of a text in which every line ends with a newline; [None]
    when the last line does not. *)
Definition lines (s : string) : option (list string) :=
  let l := split_on newline s in
  match last l with
  | Some "" => Some (removelast l)
  | _ => None
  end.

End Str.

(** ** Python string formatting *)

Module Fmt.

(** [str(n)] for a non-negative integer. *)
Definition dec (n : N) : string := NilZero.string_of_uint (N.to_uint n).

Fixpoint zeros (k : nat) : string :=
  match k with
  | O => ""
  | S k' => String "0" (zeros k')
  end.

(** Zero fill on the left up to a minimal width, as the [0w] part of a
    format specification does for a number without sign. *)
Definition zfill (w : nat) (s : string) : string :=
  zeros (w - String.length s) +:+ s.

(** [int(s)] for a string of digits. *)
Definition parse (s : string) : option N :=
  N.of_uint <$> NilEmpty.uint_of_string s.

(** [f"{n:06d}"] for [n >= 0]. *)
Definition format_06d (n : N) : string := zfill 6 (dec n).

Definition digit (d : Z) : ascii := ascii_of_N (48 + Z.to_N d).

(** The [k] low decimal digits of [n], most significant first. *)
Fixpoint fixed_digits (k : nat) (n : Z) (acc : string) : string :=
  match k with
  | O => acc
  | S k' => fixed_digits k' (n / 10) (String (digit (n mod 10)) acc)
  end.

(** Nearest integer to [a / b] for [b > 0], a tie going to the even
    neighbour: the rounding of the correctly rounded conversion that
    [float.__format__] performs. *)
Definition div_half_even (a b : Z) : Z :=
  let q := a / b in
  match (2 * (a mod b)) ?= b with
  | Lt => q
  | Gt => q + 1
  | Eq => if Z.even q then q else q + 1
  end.

(** [|x| * 10^p] rounded to an integer, for [|x| = m * 2^e]. *)
Definition scaled (p : nat) (m : positive) (e : Z) : Z :=
  if 0 <=? e then Z.pos m * 2 ^ e * 10 ^ Z.of_nat p
  else div_half_even (Z.pos m * 10 ^ Z.of_nat p) (2 ^ (- e)).

Definition sign (s : bool) : string := if s then "-" else "".

Definition fixed_point (p : nat) (q : Z) : string :=
  dec (Z.to_N (q / 10 ^ Z.of_nat p))
    +:+ String "." (fixed_digits p (q mod 10 ^ Z.of_nat p) "").

(** [f"{x:.pf}"] for a float [x] (for [p > 0]; the point is always
    written). *)
Definition format_f (p : nat) (x : spec_float) : string :=
  match x with
  | S754_nan => "nan"
  | S754_infinity s => sign s +:+ "inf"
  | S754_zero s => sign s +:+ fixed_point p 0
  | S754_finite s m e => sign s +:+ fixed_point p (scaled p m e)
  end.

(** [f"{x:.9f}"]. *)
Definition format_9f (x : spec_float) : string := format_f 9 x.

End Fmt.

(** ** binary64 arithmetic *)

Module Float64.

Definition prec : Z := 53.
Definition emax : Z := 1024.

Definition mul : spec_float -> spec_float -> spec_float := SFmul prec emax.
Definition div : spec_float -> spec_float -> spec_float := SFdiv prec emax.
Definition neg : spec_float -> spec_float := SFopp.

(** The float nearest to an integer ([float(n)], also the conversion of
    the integer operand of a mixed product). *)
Definition of_int (n : Z) : spec_float := binary_normalize prec emax n 0 false.

(** The literal [num / 10^k] written in decimal: both are exact
    binary64 numbers for the small literals of the program, so the
    correctly rounded quotient is the float the literal denotes. *)
Definition of_decimal (num : Z) (k : nat) : spec_float :=
  div (of_int num) (of_int (10 ^ Z.of_nat k)).

Definition is_finite (x : spec_float) : bool :=
  match x with
  | S754_zero _ | S754_finite _ _ _ => true
  | _ => false
  end.

(** A finite number of magnitude below [2^bound]. *)
Definition finite_below (bound : Z) (x : spec_float) : Prop :=
  match x with
  | S754_zero _ => True
  | S754_finite _ m e => Zdigits2 (Z.pos m) + e <= bound
  | _ => False
  end.

End Float64.

(** ** [os.path] on a POSIX system *)

Module Path.

Fixpoint rfind_from (c : ascii) (s : string) (i last : Z) : Z :=
  match s with
  | "" => last
  | String a s' => rfind_from c s' (i + 1) (if Ascii.eqb a c then i else last)
  end.

(** [s.rfind(c)]: the highest index of [c] in [s], or [-1]. *)
Definition rfind (c : ascii) (s : string) : Z := rfind_from c s 0 (-1).

(** [s[i:j]] for [0 <= i]. *)
Definition slice (i j : Z) (s : string) : string :=
  String.substring (Z.to_nat i) (Z.to_nat (j - i)) s.

Fixpoint all_dots (s : string) : bool :=
  match s with
  | "" => true
  | String a s' => Ascii.eqb a "." && all_dots s'
  end.

(** [os.path.splitext]: the extension starts at the last dot of the last
    component, unless only dots precede that dot in the component. *)
Definition splitext (p : string) : string * string :=
  let sepIndex := rfind "/" p in
  let dotIndex := rfind "." p in
  let len := Z.of_nat (String.length p) in
  if (sepIndex <? dotIndex) && negb (all_dots (slice (sepIndex + 1) dotIndex p))
  then (slice 0 dotIndex p, slice dotIndex len p)
  else (p, "").

Definition startswith_sep (s : string) : bool :=
  match s with
  | String a _ => Ascii.eqb a "/"
  | "" => false
  end.

Fixpoint endswith_sep (s : string) : bool :=
  match s with
  | "" => false
  | String a "" => Ascii.eqb a "/"
  | String _ s' => endswith_sep s'
  end.

(** What [join] puts before a relative second argument. *)
Definition dir_prefix (a : string) : string :=
  if String.eqb a "" || endswith_sep a then a else a +:+ "/".

(** [os.path.join(a, b)]. *)
Definition join (a b : string) : string :=
  if startswith_sep b then b
  else if String.eqb a "" || endswith_sep a then a +:+ b
  else a +:+ "/" +:+ b.

Fixpoint prefixes_go (pre s : string) : list string :=
  match s with
  | "" => [pre]
  | String c s' =>
      (if Ascii.eqb c "/" then [pre] else [])
        ++ prefixes_go (pre +:+ String c "") s'
  end.

(** The directories [os.makedirs(p)] makes sure exist: [p] and the
    prefixes of [p] that end before a separator. *)
Definition ancestors (p : string) : list string :=
  filter (fun d => d <> "") (prefixes_go "" p).

End Path.

(** ** The ZED SDK as the program sees it *)

Module sl.

(** Result codes of the SDK.  The program only compares them with
    [SUCCESS]. *)
Inductive ERROR_CODE :=
| SUCCESS
| FAILURE
| CAMERA_NOT_DETECTED
| INVALID_SVO_FILE
| SVO_UNSUPPORTED_COMPRESSION
| SVO_RECORDING_ERROR
| END_OF_SVOFILE_REACHED
| CORRUPTED_FRAME
| CAMERA_NOT_INITIALIZED.

#[global] Instance ERROR_CODE_eq_dec : EqDecision ERROR_CODE.
Proof. solve_decision. Defined.

Inductive VIEW := LEFT | RIGHT | LEFT_UNRECTIFIED | RIGHT_UNRECTIFIED.

Inductive TIME_REFERENCE := IMAGE | CURRENT.

(** The pixel buffer [sl.Mat.get_data()] returns: rows, columns,
    channels. *)
Definition ndarray : Type := list (list (list Byte.byte)).

Record CameraParameters := {
  fx : spec_float;
  fy : spec_float;
  cx : spec_float;
  cy : spec_float
}.

Record CalibrationParameters := {
  left_cam : CameraParameters;
  right_cam : CameraParameters;
  (** [stereo_transform.get_translation().get()]: three coordinates. *)
  stereo_transform_translation : spec_float * spec_float * spec_float
}.

(** What the handle holds after a grab: an image for each view and a
    timestamp, in nanoseconds, for each time reference. *)
Record Frame := {
  image : VIEW -> ndarray;
  timestamp_ns : TIME_REFERENCE -> Z
}.

(** A recording as the SDK presents it: the status of opening it, its
    calibration and the results of the successive calls of [grab], each
    with the frame the handle then holds.  A recording whose results are
    used up reports [END_OF_SVOFILE_REACHED]. *)
Record Recording := {
  open_status : ERROR_CODE;
  calibration_parameters : CalibrationParameters;
  grabs : list (ERROR_CODE * Frame)
}.

End sl.

Import sl.

(** ** The outside world *)

Inductive Content :=
| Text (data : string)
| Png (pixels : ndarray).

Inductive Message :=
| OpeningInputFile (input_file : string)
| FailedToOpen (status : ERROR_CODE)
| ExportedFrames (frame_count : N) (output_dir : string)
| SavedCalibration (path : string).

(** The calls the program makes, in the order it makes them. *)
Inductive Event :=
| Makedirs (path : string)
| OpenW (path : string)
| FileWrite (path : string) (data : string)
| FileClose (path : string)
| Imwrite (path : string) (pixels : ndarray)
| Print (msg : Message)
| CamOpen (input_file : string) (status : ERROR_CODE)
| CamGetCameraInformation
| CamGrab (status : ERROR_CODE)
| CamRetrieveImage (view : VIEW)
| CamGetTimestamp (reference : TIME_REFERENCE)
| CamClose.

Record World := {
  dirs : gset string;
  files : gmap string Content;
  trace : list Event
}.

Definition log (e : Event) (w : World) : World :=
  {| dirs := dirs w; files := files w; trace := trace w ++ [e] |}.

Definition text_of (c : option Content) : string :=
  match c with
  | Some (Text t) => t
  | _ => ""
  end.

(** [os.makedirs(path, exist_ok=True)]. *)
Definition makedirs (path : string) (w : World) : World :=
  log (Makedirs path)
    {| dirs := list_to_set (Path.ancestors path) ∪ dirs w;
       files := files w; trace := trace w |}.

(** [open(path, 'w')]: the file is created or truncated. *)
Definition open_w (path : string) (w : World) : World :=
  log (OpenW path)
    {| dirs := dirs w; files := <[path := Text ""]> (files w); trace := trace w |}.

(** [f.write(data)] on a file opened at [path]: the data end up after
    what was written before, when the buffer is flushed at the latest. *)
Definition file_write (path data : string) (w : World) : World :=
  log (FileWrite path data)
    {| dirs := dirs w;
       files := <[path := Text (text_of (files w !! path) +:+ data)]> (files w);
       trace := trace w |}.

Definition file_close (path : string) (w : World) : World :=
  log (FileClose path) w.

(** [cv2.imwrite(path, pixels)]: the codec's encoding of [pixels]. *)
Definition imwrite (path : string) (pixels : ndarray) (w : World) : World :=
  log (Imwrite path pixels)
    {| dirs := dirs w; files := <[path := Png pixels]> (files w); trace := trace w |}.

Definition print (msg : Message) (w : World) : World := log (Print msg) w.

(** [a[:, :, :3]]. *)
Definition first3 (a : ndarray) : ndarray := map (map (take 3)) a.

(** ** The program *)

Inductive Outcome :=
| Return (w : World)
| SystemExit (code : Z) (w : World).

Definition world_of (o : Outcome) : World :=
  match o with
  | Return w => w
  | SystemExit _ w => w
  end.

(** The exit code of the process. *)
Definition exit_code (o : Outcome) : Z :=
  match o with
  | Return _ => 0
  | SystemExit code _ => code
  end.

Definition one_e_minus_9 : spec_float := Float64.of_decimal 1 9.

(** The line of [times.txt] for a timestamp: [f"{ts * 1e-9:.9f}\n"]. *)
Definition times_line (ts : Z) : string :=
  Fmt.format_9f (Float64.mul (Float64.of_int ts) one_e_minus_9) +:+ Str.nl.

(** [f"{frame_count:06d}.png"]. *)
Definition image_name (frame_count : N) : string :=
  Fmt.format_06d frame_count +:+ ".png".

Section Loop.

Variables image_0_dir image_1_dir times_file : string.

(** The body of [while True], once for each result of [zed.grab]. *)
Fixpoint export_loop (results : list (ERROR_CODE * Frame))
    (frame_count : N) (w : World) : N * World :=
  match results with
  | [] => (frame_count, log (CamGrab END_OF_SVOFILE_REACHED) w)
  | (status, frame) :: results' =>
      let w := log (CamGrab status) w in
      if decide (status = SUCCESS) then
        let w := log (CamRetrieveImage LEFT) w in
        let left_image := image frame LEFT in
        let w := log (CamRetrieveImage RIGHT) w in
        let right_image := image frame RIGHT in
        let w := log (CamGetTimestamp IMAGE) w in
        let ts := timestamp_ns frame IMAGE in
        let left_np := first3 left_image in
        let right_np := first3 right_image in
        let filename_left := image_name frame_count in
        let filename_right := image_name frame_count in
        let w := imwrite (Path.join image_0_dir filename_left) left_np w in
        let w := imwrite (Path.join image_1_dir filename_right) right_np w in
        let w := file_write times_file (times_line ts) w in
        export_loop results' (frame_count + 1)%N w
      else (frame_count, w)
  end.

End Loop.

Definition P0_line (fx_left cx_left fy_left cy_left : spec_float) : string :=
  "P0: " +:+ Fmt.format_9f fx_left +:+ " 0.0 " +:+ Fmt.format_9f cx_left
    +:+ " 0.0 0.0 " +:+ Fmt.format_9f fy_left +:+ " " +:+ Fmt.format_9f cy_left
    +:+ " 0.0 0.0 0.0 1.0 0.0".

Definition P1_line (fx_right cx_right tx fy_right cy_right : spec_float) : string :=
  "P1: " +:+ Fmt.format_9f fx_right +:+ " 0.0 " +:+ Fmt.format_9f cx_right
    +:+ " " +:+ Fmt.format_9f tx +:+ " 0.0 " +:+ Fmt.format_9f fy_right
    +:+ " " +:+ Fmt.format_9f cy_right +:+ " 0.0 0.0 0.0 1.0 0.0".

Definition baseline_of (c : CalibrationParameters) : spec_float :=
  let '(t0, _, _) := stereo_transform_translation c in t0.

Definition tx_of (fx_left baseline : spec_float) : spec_float :=
  Float64.mul (Float64.neg fx_left) baseline.

(** The list [calib_str] built from the values read from the handle. *)
Definition calib_str (left_cam_params right_cam_params : CameraParameters)
    (baseline : spec_float) : list string :=
  let fx_left := fx left_cam_params in
  let fy_left := fy left_cam_params in
  let cx_left := cx left_cam_params in
  let cy_left := cy left_cam_params in
  let fx_right := fx right_cam_params in
  let fy_right := fy right_cam_params in
  let cx_right := cx right_cam_params in
  let cy_right := cy right_cam_params in
  let tx := tx_of fx_left baseline in
  [P0_line fx_left cx_left fy_left cy_left;
   P1_line fx_right cx_right tx fy_right cy_right].

Definition write_lines (path : string) (lines : list string) (w : World) : World :=
  foldl (fun w line => file_write path (line +:+ Str.nl) w) w lines.

Definition default_output_dir (input_file : string) : string :=
  (Path.splitext input_file).1 +:+ "_kitti_dataset".

Definition resolve_output_dir (input_file : string) (output_dir : option string)
    : string :=
  match output_dir with
  | None => default_output_dir input_file
  | Some d => d
  end.

(** [zed2_to_kitti(input_file, output_dir)], run on the recording [rec]
    that the SDK finds at [input_file], from the world [w]. *)
Definition zed2_to_kitti (rec : Recording) (input_file : string)
    (output_dir : option string) (w : World) : Outcome :=
  let output_dir := resolve_output_dir input_file output_dir in
  let image_0_dir := Path.join output_dir "image_0" in
  let image_1_dir := Path.join output_dir "image_1" in
  let w := makedirs image_0_dir w in
  let w := makedirs image_1_dir w in
  let times_file := Path.join output_dir "times.txt" in
  let w := open_w times_file w in
  let w := print (OpeningInputFile input_file) w in
  let status := open_status rec in
  let w := log (CamOpen input_file status) w in
  if decide (status <> SUCCESS) then
    let w := print (FailedToOpen status) w in
    SystemExit 1 w
  else
    let w := log CamGetCameraInformation w in
    let w := log CamGetCameraInformation w in
    let left_cam_params := left_cam (calibration_parameters rec) in
    let w := log CamGetCameraInformation w in
    let right_cam_params := right_cam (calibration_parameters rec) in
    let w := log CamGetCameraInformation w in
    let calibration_params := calibration_parameters rec in
    let baseline := baseline_of calibration_params in
    let '(frame_count, w) :=
      export_loop image_0_dir image_1_dir times_file (grabs rec) 0%N w in
    let w := print (ExportedFrames frame_count output_dir) w in
    let w := file_close times_file w in
    let w := log CamClose w in
    let calib := calib_str left_cam_params right_cam_params baseline in
    let calib_file := Path.join output_dir "calib.txt" in
    let w := open_w calib_file w in
    let w := write_lines calib_file calib w in
    let w := file_close calib_file w in
    let w := print (SavedCalibration calib_file) w in
    Return w.

(** The namespace [argparse] returns. *)
Record Args := {
  input_file : string;
  output_dir : option string
}.

Definition main (rec : Recording) (args : Args) (w : World) : Outcome :=
  zed2_to_kitti rec (input_file args) (output_dir args) w.

(** The frames of the leading successful results, which are the ones the
    loop exports. *)
Fixpoint successes (results : list (ERROR_CODE * Frame)) : list Frame :=
  match results with
  | (SUCCESS, frame) :: results' => frame :: successes results'
  | _ => []
  end.

(** The status of the call of [grab] that ends the loop. *)
Fixpoint final_status (results : list (ERROR_CODE * Frame)) : ERROR_CODE :=
  match results with
  | [] => END_OF_SVOFILE_REACHED
  | (SUCCESS, _) :: results' => final_status results'
  | (status, _) :: _ => status
  end.

(** *** What a run is expected to leave behind *)

Section Expected.

Variables image_0_dir image_1_dir times_file : string.

(** The calls of one iteration that exports [frame] as number [n]. *)
Definition frame_events (n : N) (frame : Frame) : list Event :=
  [CamGrab SUCCESS;
   CamRetrieveImage LEFT;
   CamRetrieveImage RIGHT;
   CamGetTimestamp IMAGE;
   Imwrite (Path.join image_0_dir (image_name n)) (first3 (image frame LEFT));
   Imwrite (Path.join image_1_dir (image_name n)) (first3 (image frame RIGHT));
   FileWrite times_file (times_line (timestamp_ns frame IMAGE))].

Fixpoint frames_events (n : N) (frames : list Frame) : list Event :=
  match frames with
  | [] => []
  | frame :: frames' => frame_events n frame ++ frames_events (n + 1)%N frames'
  end.

End Expected.

(** [f"{ts * 1e-9:.9f}"] for the timestamp of a frame, taken with the
    reference of the image. *)
Definition seconds_9f (frame : Frame) : string :=
  Fmt.format_9f
    (Float64.mul (Float64.of_int (timestamp_ns frame IMAGE))
       (Float64.of_decimal 1 9)).

Fixpoint times_text (frames : list Frame) : string :=
  match frames with
  | [] => ""
  | frame :: frames' =>
      times_line (timestamp_ns frame IMAGE) +:+ times_text frames'
  end.

Definition calib_text (c : CalibrationParameters) : string :=
  let tx := tx_of (fx (left_cam c)) (baseline_of c) in
  P0_line (fx (left_cam c)) (cx (left_cam c)) (fy (left_cam c)) (cy (left_cam c))
    +:+ Str.nl
    +:+ P1_line (fx (right_cam c)) (cx (right_cam c)) tx
          (fy (right_cam c)) (cy (right_cam c))
    +:+ Str.nl.

(** The twelve values of the lines of [calib.txt]. *)
Definition P0_values (fx_left cx_left fy_left cy_left : spec_float) : list string :=
  [Fmt.format_9f fx_left; "0.0"; Fmt.format_9f cx_left; "0.0";
   "0.0"; Fmt.format_9f fy_left; Fmt.format_9f cy_left; "0.0";
   "0.0"; "0.0"; "1.0"; "0.0"].

Definition P1_values (fx_right cx_right tx fy_right cy_right : spec_float)
    : list string :=
  [Fmt.format_9f fx_right; "0.0"; Fmt.format_9f cx_right; Fmt.format_9f tx;
   "0.0"; Fmt.format_9f fy_right; Fmt.format_9f cy_right; "0.0";
   "0.0"; "0.0"; "1.0"; "0.0"].

(** *** The shape the specification gives to [calib.txt] *)

Definition has_9_decimals (v : string) : bool :=
  bool_decide (Str.decimals v = Some 9%nat).

(** A label followed by twelve values with nine decimals each. *)
Definition line_as_claimed (label line : string) : bool :=
  match Str.split_on " " line with
  | l :: values =>
      String.eqb l label && (length values =? 12)%nat
        && forallb has_9_decimals values
  | [] => false
  end.

Definition calib_as_claimed (text : string) : bool :=
  match Str.lines text with
  | Some [l0; l1] => line_as_claimed "P0:" l0 && line_as_claimed "P1:" l1
  | _ => false
  end.

(** The calls before the recording is opened. *)
Definition setup_events (output_dir input_file : string) : list Event :=
  [Makedirs (Path.join output_dir "image_0");
   Makedirs (Path.join output_dir "image_1");
   OpenW (Path.join output_dir "times.txt");
   Print (OpeningInputFile input_file)].

(** The calls after the loop. *)
Definition closing_events (output_dir : string) (frame_count : N)
    (c : CalibrationParameters) : list Event :=
  let calib_file := Path.join output_dir "calib.txt" in
  let lines := calib_str (left_cam c) (right_cam c) (baseline_of c) in
  [Print (ExportedFrames frame_count output_dir);
   FileClose (Path.join output_dir "times.txt");
   CamClose;
   OpenW calib_file]
  ++ map (fun line => FileWrite calib_file (line +:+ Str.nl)) lines
  ++ [FileClose calib_file;
      Print (SavedCalibration calib_file)].

(** The calls of the loop on the results of a recording. *)
Definition loop_events (output_dir : string)
    (results : list (ERROR_CODE * Frame)) : list Event :=
  frames_events (Path.join output_dir "image_0") (Path.join output_dir "image_1")
    (Path.join output_dir "times.txt") 0%N (successes results)
  ++ [CamGrab (final_status results)].

(** The directories after the two calls of [makedirs]. *)
Definition dirs_after (output_dir : string) (w : World) : gset string :=
  list_to_set (Path.ancestors (Path.join output_dir "image_1"))
  ∪ (list_to_set (Path.ancestors (Path.join output_dir "image_0")) ∪ dirs w).

(** The world in which the loop starts. *)
Definition before_loop (output_dir input_file : string) (w : World) : World :=
  {| dirs := dirs_after output_dir w;
     files := <[Path.join output_dir "times.txt" := Text ""]> (files w);
     trace := trace w ++ setup_events output_dir input_file
                ++ CamOpen input_file SUCCESS
                   :: replicate 4 CamGetCameraInformation |}.

(** The world in which the loop ends. *)
Definition after_loop (rec : Recording) (output_dir input_file : string)
    (w : World) : World :=
  (export_loop (Path.join output_dir "image_0") (Path.join output_dir "image_1")
     (Path.join output_dir "times.txt") (grabs rec) 0%N
     (before_loop output_dir input_file w)).2.

(** The path a call on the file system names. *)
Definition event_path (e : Event) : option string :=
  match e with
  | Makedirs p | OpenW p | FileWrite p _ | FileClose p | Imwrite p _ => Some p
  | _ => None
  end.

(** [p] lies in the directory [d]. *)
Definition under (d p : string) : bool := String.prefix (Path.dir_prefix d) p.

(** The calls [events] name no path outside the directory [d]. *)
Definition touches_only (d : string) (events : list Event) : Prop :=
  Forall (fun e => ∀ p, event_path e = Some p → under d p = true) events.

(** The messages printed by the calls [events]. *)
Definition printed (events : list Event) : list Message :=
  omap (fun e => match e with Print msg => Some msg | _ => None end) events.

Definition is_camera_call (e : Event) : bool :=
  match e with
  | CamOpen _ _ | CamGetCameraInformation | CamGrab _ | CamRetrieveImage _
  | CamGetTimestamp _ | CamClose => true
  | _ => false
  end.

(** *** Vocabulary of the further properties *)

(** Every pixel of [a] has at most [k] channels. *)
Definition channels_at_most (k : nat) (a : ndarray) : Prop :=
  Forall (Forall (fun px : list Byte.byte => (length px <= k)%nat)) a.

(** Two pixel buffers of the same rows and columns whose pixels differ in
    the channels after the third at most. *)
Definition same_colours (a b : ndarray) : Prop :=
  Forall2 (Forall2 (fun p q : list Byte.byte => take 3 p = take 3 q)) a b.

Definition is_grab (e : Event) : bool :=
  match e with CamGrab _ => true | _ => false end.

Definition is_retrieve_image (e : Event) : bool :=
  match e with CamRetrieveImage _ => true | _ => false end.

Definition is_get_timestamp (e : Event) : bool :=
  match e with CamGetTimestamp _ => true | _ => false end.

Definition is_cam_close (e : Event) : bool :=
  match e with CamClose => true | _ => false end.

Definition is_file_close (e : Event) : bool :=
  match e with FileClose _ => true | _ => false end.

Definition is_imwrite (e : Event) : bool :=
  match e with Imwrite _ _ => true | _ => false end.

(** How many of the calls [events] satisfy [f]. *)
Definition count (f : Event → bool) (events : list Event) : nat :=
  length (List.filter f events).

(** The paths of the files a run that exports [K] frames writes. *)
Definition image_paths (d : string) (K : nat) : list string :=
  flat_map (fun N => [Path.join (Path.join d "image_0") (image_name (N.of_nat N));
                      Path.join (Path.join d "image_1") (image_name (N.of_nat N))])
    (seq 0 K).

Definition written_paths (d : string) (K : nat) : list string :=
  Path.join d "times.txt" :: Path.join d "calib.txt" :: image_paths d K.

(** The sign bit of a float that is not a NaN. *)
Definition sign_bit (x : spec_float) : option bool :=
  match x with
  | S754_zero s | S754_infinity s | S754_finite s _ _ => Some s
  | S754_nan => None
  end.

Definition starts_with_minus (s : string) : bool :=
  match s with
  | String a _ => Ascii.eqb a "-"
  | "" => false
  end.

Module Examples.

Definition cam0 : CameraParameters :=
  {| fx := Float64.of_int 700; fy := Float64.of_int 700;
     cx := Float64.of_int 640; cy := Float64.of_int 360 |}.

Definition calib0 : CalibrationParameters :=
  {| left_cam := cam0; right_cam := cam0;
     stereo_transform_translation :=
       (Float64.of_decimal 12 2, Float64.of_int 0, Float64.of_int 0) |}.

Definition frame0 (t : Z) : Frame :=
  {| image := fun v =>
       match v with
       | LEFT => [[[Byte.x01; Byte.x02; Byte.x03; Byte.xff]]]
       | _ => [[[Byte.x04; Byte.x05; Byte.x06; Byte.xff]]]
       end;
     timestamp_ns := fun r =>
       match r with
       | IMAGE => t
       | CURRENT => t + 5000
       end |}.

Definition rec0 : Recording :=
  {| open_status := SUCCESS; calibration_parameters := calib0;
     grabs := [(SUCCESS, frame0 1000000000); (SUCCESS, frame0 1033333333);
               (CORRUPTED_FRAME, frame0 5); (SUCCESS, frame0 7)] |}.

Definition rec_bad : Recording :=
  {| open_status := INVALID_SVO_FILE; calibration_parameters := calib0;
     grabs := [] |}.

Definition args0 : Args :=
  {| input_file := "/data/run1.svo"; output_dir := None |}.

Definition empty_world : World := {| dirs := ∅; files := ∅; trace := [] |}.

End Examples.

(** * Properties *)

(** ** Strings *)

Module StrFacts.
Import Str.

Lemma sapp_nil_l (s : string) : "" +:+ s = s.
Proof. done. Qed.

Lemma sapp_cons (x : ascii) (a b : string) : String x a +:+ b = String x (a +:+ b).
Proof. done. Qed.

Lemma sapp_assoc (a b c : string) : (a +:+ b) +:+ c = a +:+ (b +:+ c).
Proof. induction a as [|x a IH]; [done|]. by rewrite !sapp_cons, IH. Qed.

Lemma sapp_nil_r (s : string) : s +:+ "" = s.
Proof. induction s as [|x s IH]; [done|]. by rewrite sapp_cons, IH. Qed.

Lemma length_sapp (a b : string) :
  String.length (a +:+ b) = (String.length a + String.length b)%nat.
Proof. induction a as [|x a IH]; [done|]. rewrite sapp_cons. simpl. by rewrite IH. Qed.

Lemma sapp_inv_tail (a b c : string) : a +:+ c = b +:+ c → a = b.
Proof.
  revert b. induction a as [|x a IH]; intros [|y b] H;
    rewrite ?sapp_cons, ?sapp_nil_l in H.
  - done.
  - apply (f_equal String.length) in H. simpl in H. rewrite length_sapp in H. lia.
  - apply (f_equal String.length) in H. simpl in H. rewrite length_sapp in H. lia.
  - injection H as -> H. f_equal. by apply IH.
Qed.

Lemma occurs_cons (c x : ascii) (s : string) :
  occurs c (String x s) = Ascii.eqb x c || occurs c s.
Proof. done. Qed.

Lemma occurs_app (c : ascii) (a b : string) :
  occurs c (a +:+ b) = occurs c a || occurs c b.
Proof.
  induction a as [|x a IH]; [done|]. rewrite sapp_cons. simpl.
  rewrite IH. by rewrite orb_assoc.
Qed.

Lemma split_on_absent (c : ascii) (s : string) :
  occurs c s = false → split_on c s = [s].
Proof.
  induction s as [|x s IH]; simpl; [done|].
  intros [Hx Hs]%orb_false_elim. rewrite Hx, (IH Hs). done.
Qed.

Lemma split_on_app (c : ascii) (a b : string) :
  occurs c a = false → split_on c (a +:+ String c b) = a :: split_on c b.
Proof.
  induction a as [|x a IH]; rewrite ?sapp_cons, ?sapp_nil_l; simpl.
  - intros _. by rewrite Ascii.eqb_refl.
  - intros [Hx Ha]%orb_false_elim. rewrite Hx, (IH Ha). done.
Qed.

Lemma split_join (c : ascii) (l : list string) :
  l ≠ [] → Forall (fun t => occurs c t = false) l →
  split_on c (join_with c l) = l.
Proof.
  induction l as [|t l IH]; [done|]. intros _ Hl.
  apply Forall_cons in Hl as [Ht Hl].
  destruct l as [|t' l].
  - simpl. by apply split_on_absent.
  - change (join_with c (t :: t' :: l)) with (t +:+ String c (join_with c (t' :: l))).
    rewrite split_on_app by done. f_equal. by apply IH.
Qed.

Lemma all_digits_app (a b : string) :
  all_digits (a +:+ b) = all_digits a && all_digits b.
Proof.
  induction a as [|x a IH]; [done|]. rewrite sapp_cons. simpl.
  rewrite IH. by rewrite andb_assoc.
Qed.

Lemma all_digits_occurs (c : ascii) (s : string) :
  is_digit c = false → all_digits s = true → occurs c s = false.
Proof.
  intros Hc. induction s as [|x s IH]; simpl; [done|].
  intros [Hx Hs]%andb_prop. rewrite (IH Hs), orb_false_r.
  destruct (Ascii.eqb_spec x c) as [->|]; [congruence|done].
Qed.

(** A value written with a sign, digits, a point and digits. *)
Lemma decimals_fixed (sgn : bool) (i f : string) :
  i ≠ "" → all_digits i = true → all_digits f = true →
  decimals ((if sgn then "-" else "") +:+ i +:+ String "." f)
  = Some (String.length f).
Proof.
  intros Hi Di Df.
  assert (Hs : forall s, s = i +:+ String "." f →
            match split_on "." s with
            | [int_part; frac] =>
                if negb (String.eqb int_part "") && all_digits int_part
                     && all_digits frac
                then Some (String.length frac) else None
            | _ => None
            end = Some (String.length f)).
  { intros s ->. rewrite split_on_app by (by apply all_digits_occurs).
    rewrite split_on_absent by (by apply all_digits_occurs).
    rewrite Di, Df. destruct (String.eqb_spec i ""); [done|]. done. }
  unfold decimals. destruct sgn; simpl.
  - by apply Hs.
  - destruct i as [|x i]; [done|]. simpl.
    assert (Hx : x ≠ "-"%char).
    { intros ->. simpl in Di. done. }
    specialize (Hs _ eq_refl). simpl in Hs.
    destruct x as [[] [] [] [] [] [] [] []]; try done.
Qed.

End StrFacts.

Module FmtFacts.
Import Str StrFacts Fmt.

Lemma all_digits_string_of_uint (d : Decimal.uint) :
  all_digits (NilEmpty.string_of_uint d) = true.
Proof. induction d; simpl; auto. Qed.

Lemma all_digits_dec (n : N) : all_digits (dec n) = true.
Proof.
  unfold dec, NilZero.string_of_uint.
  destruct (N.to_uint n); try done; apply (all_digits_string_of_uint (_ _)).
Qed.

Lemma dec_nonempty (n : N) : dec n ≠ "".
Proof.
  unfold dec, NilZero.string_of_uint. destruct (N.to_uint n); done.
Qed.

Lemma all_digits_zeros (k : nat) : all_digits (zeros k) = true.
Proof. induction k; simpl; auto. Qed.

Lemma all_digits_format_06d (n : N) : all_digits (format_06d n) = true.
Proof.
  unfold format_06d, zfill.
  by rewrite all_digits_app, all_digits_zeros, all_digits_dec.
Qed.

Lemma parse_zeros (k : nat) (s : string) : parse (zeros k +:+ s) = parse s.
Proof.
  induction k as [|k IH]; [done|].
  simpl. rewrite sapp_cons. unfold parse in *. simpl.
  destruct (NilEmpty.uint_of_string (zeros k +:+ s)) as [d|] eqn:E1;
    destruct (NilEmpty.uint_of_string s) as [d'|] eqn:E2; simpl in *; try done.
Qed.

Lemma parse_dec (n : N) : parse (dec n) = Some n.
Proof.
  unfold parse, dec.
  assert (H : N.to_uint n ≠ Decimal.Nil).
  { destruct n; simpl; [done|]. apply DecimalPos.Unsigned.to_uint_nonnil. }
  pose proof (NilZero.usu _ H) as E. unfold NilZero.uint_of_string in E.
  destruct (NilZero.string_of_uint (N.to_uint n)) eqn:E'; [done|].
  rewrite E. simpl. by rewrite DecimalN.Unsigned.of_to.
Qed.

Lemma format_06d_inj (n m : N) : format_06d n = format_06d m → n = m.
Proof.
  intros H. apply (f_equal parse) in H. unfold format_06d, zfill in H.
  rewrite !parse_zeros, !parse_dec in H. congruence.
Qed.

Lemma format_06d_nonempty (n : N) : format_06d n ≠ "".
Proof.
  unfold format_06d, zfill. intros H. apply (f_equal String.length) in H.
  rewrite length_sapp in H. simpl in H.
  pose proof (dec_nonempty n). destruct (dec n); [done|]. simpl in H. lia.
Qed.

Lemma is_digit_digit (d : Z) : 0 <= d < 10 → is_digit (digit d) = true.
Proof.
  intros H. assert (d = 0 ∨ d = 1 ∨ d = 2 ∨ d = 3 ∨ d = 4 ∨ d = 5 ∨ d = 6
                    ∨ d = 7 ∨ d = 8 ∨ d = 9) by lia.
  decompose [or] H0; subst; done.
Qed.

Lemma fixed_digits_spec (k : nat) (n : Z) (acc : string) :
  all_digits acc = true →
  all_digits (fixed_digits k n acc) = true
  ∧ String.length (fixed_digits k n acc) = (k + String.length acc)%nat.
Proof.
  revert n acc. induction k as [|k IH]; intros n acc Hacc; simpl; [done|].
  destruct (IH (n / 10) (String (digit (n mod 10)) acc)) as [H1 H2].
  { simpl. rewrite Hacc, is_digit_digit; [done|]. apply Z.mod_pos_bound. lia. }
  split; [done|]. rewrite H2. simpl. lia.
Qed.

Lemma fixed_point_shape (p : nat) (q : Z) :
  ∃ i f, fixed_point p q = i +:+ String "." f ∧ i ≠ "" ∧ all_digits i = true
         ∧ all_digits f = true ∧ String.length f = p.
Proof.
  unfold fixed_point. eexists _, _. split; [done|].
  destruct (fixed_digits_spec p (q mod 10 ^ Z.of_nat p) "" eq_refl) as [H1 H2].
  split; [apply dec_nonempty|]. split; [apply all_digits_dec|].
  split; [done|]. rewrite H2. simpl. lia.
Qed.

Lemma format_f_finite (p : nat) (x : spec_float) :
  Float64.is_finite x = true → decimals (format_f p x) = Some p.
Proof.
  assert (H : ∀ s q, decimals (sign s +:+ fixed_point p q) = Some p).
  { intros s q. destruct (fixed_point_shape p q) as (i & f & -> & Hi & Di & Df & <-).
    by apply decimals_fixed. }
  destruct x; simpl; try done; intros _; apply H.
Qed.

Lemma occurs_fixed_point (c : ascii) (p : nat) (q : Z) :
  is_digit c = false → c ≠ "."%char → occurs c (fixed_point p q) = false.
Proof.
  intros Hc Hdot.
  destruct (fixed_point_shape p q) as (i & f & -> & Hi & Di & Df & _).
  rewrite occurs_app, occurs_cons, !all_digits_occurs by done.
  rewrite orb_false_r, orb_false_l. destruct (Ascii.eqb_spec "." c); congruence.
Qed.

(** A formatted float holds no character other than digits, a sign, a
    point and the letters of [nan] and [inf]. *)
Lemma occurs_format_f (c : ascii) (p : nat) (x : spec_float) :
  is_digit c = false → occurs c "-.naif" = false →
  occurs c (format_f p x) = false.
Proof.
  intros Hc Hs.
  assert (Hdot : c ≠ "."%char).
  { intros ->. done. }
  rewrite !occurs_cons in Hs.
  repeat (apply orb_false_elim in Hs as [? Hs]).
  assert (Hsign : ∀ s, occurs c (sign s) = false).
  { intros []; [|done]. unfold sign. rewrite occurs_cons. by apply orb_false_intro. }
  destruct x; unfold format_f; rewrite ?occurs_app, ?Hsign, ?occurs_fixed_point by done;
    rewrite ?occurs_cons; repeat (apply orb_false_intro; [done|]); done.
Qed.

Lemma format_9f_no_space (x : spec_float) : occurs " " (format_9f x) = false.
Proof. by apply occurs_format_f. Qed.

Lemma format_9f_no_newline (x : spec_float) : occurs newline (format_9f x) = false.
Proof. by apply occurs_format_f. Qed.

End FmtFacts.

Module DigitsFacts.
Import Str StrFacts Fmt FmtFacts.

Lemma of_uint_acc_ge (d : Decimal.uint) (acc : positive) :
  (N.pos acc * 10 ^ N.of_nat (Decimal.nb_digits d) <= N.pos (Pos.of_uint_acc d acc))%N.
Proof.
  revert acc. induction d; intros acc; simpl Decimal.nb_digits;
    [simpl; lia|..];
    rewrite Nat2N.inj_succ, N.pow_succ_r';
    simpl Pos.of_uint_acc;
    (etrans; [|apply IHd]);
    rewrite N.mul_assoc; apply N.mul_le_mono_r; lia.
Qed.

Lemma of_uint_ge (d : Decimal.uint) :
  d ≠ Decimal.Nil → Decimal.nzhead d = d →
  (10 ^ N.of_nat (Decimal.nb_digits d - 1) <= Pos.of_uint d)%N.
Proof.
  intros Hd Hn. destruct d; [done| |..];
    try (simpl; rewrite Nat.sub_0_r;
         etrans; [|apply of_uint_acc_ge]; lia).
  exfalso. simpl in Hn. pose proof (nb_digits_nzhead d) as H.
  rewrite Hn in H. simpl in H. lia.
Qed.

Lemma length_string_of_uint (d : Decimal.uint) :
  String.length (NilEmpty.string_of_uint d) = Decimal.nb_digits d.
Proof. induction d; simpl; auto. Qed.

Lemma nzhead_to_uint (p : positive) :
  Decimal.nzhead (Pos.to_uint p) = Pos.to_uint p.
Proof.
  pose proof (DecimalPos.Unsigned.to_of (Pos.to_uint p)) as H.
  rewrite DecimalPos.Unsigned.of_to in H. simpl in H.
  unfold Decimal.unorm in H.
  destruct (Decimal.nzhead (Pos.to_uint p)) eqn:E; try done.
  exfalso. pose proof (DecimalPos.Unsigned.of_to p) as H'.
  rewrite H in H'. done.
Qed.

(** A number below [10^k] is written with at most [k] digits. *)
Lemma length_dec (k : nat) (n : N) :
  (0 < k)%nat → (n < 10 ^ N.of_nat k)%N → (String.length (dec n) <= k)%nat.
Proof.
  intros Hk Hn. unfold dec. destruct n as [|p]; [simpl; lia|].
  simpl N.to_uint.
  assert (Hd : Pos.to_uint p ≠ Decimal.Nil) by apply DecimalPos.Unsigned.to_uint_nonnil.
  pose proof (of_uint_ge _ Hd (nzhead_to_uint p)) as H.
  rewrite DecimalPos.Unsigned.of_to in H.
  unfold NilZero.string_of_uint.
  destruct (Pos.to_uint p) eqn:E; [done|..];
    rewrite <- E in *; rewrite length_string_of_uint;
    (destruct (decide (Decimal.nb_digits (Pos.to_uint p) <= k)%nat); [done|]);
    exfalso;
    assert (10 ^ N.of_nat k <= 10 ^ N.of_nat (Decimal.nb_digits (Pos.to_uint p) - 1))%N
      by (apply N.pow_le_mono_r; lia); lia.
Qed.

Lemma length_zeros (k : nat) : String.length (zeros k) = k.
Proof. induction k; simpl; auto. Qed.

Lemma format_06d_length (n : N) :
  (n < 1000000)%N → String.length (format_06d n) = 6%nat.
Proof.
  intros H. unfold format_06d, zfill. rewrite length_sapp, length_zeros.
  pose proof (length_dec 6 n ltac:(lia) H). lia.
Qed.

End DigitsFacts.

Module PathFacts.
Import Str StrFacts Fmt FmtFacts Path.

Lemma join_relative (a b : string) :
  startswith_sep b = false → join a b = dir_prefix a +:+ b.
Proof.
  intros H. unfold join, dir_prefix. rewrite H.
  destruct (String.eqb a "" || endswith_sep a); [done|]. by rewrite sapp_assoc.
Qed.

Lemma endswith_sep_app (a b : string) :
  b ≠ "" → endswith_sep (a +:+ b) = endswith_sep b.
Proof.
  intros Hb. induction a as [|x a IH]; [done|]. rewrite sapp_cons.
  simpl. rewrite IH. destruct (a +:+ b) eqn:E; [|done].
  apply (f_equal String.length) in E. rewrite length_sapp in E.
  destruct b; [done|]. simpl in E. lia.
Qed.

Lemma dir_prefix_app (a b : string) :
  b ≠ "" → endswith_sep b = false → dir_prefix (a +:+ b) = a +:+ b +:+ "/".
Proof.
  intros Hb Hs. unfold dir_prefix. rewrite endswith_sep_app, Hs by done.
  destruct (String.eqb_spec (a +:+ b) "") as [E|]; [|by rewrite sapp_assoc].
  apply (f_equal String.length) in E. rewrite length_sapp in E.
  destruct b; [done|]. simpl in E. lia.
Qed.

Lemma startswith_sep_digits (s t : string) :
  s ≠ "" → all_digits s = true → startswith_sep (s +:+ t) = false.
Proof.
  destruct s as [|x s]; [done|]. intros _ H. rewrite sapp_cons. simpl in *.
  apply andb_prop in H as [H _]. destruct (Ascii.eqb_spec x "/") as [->|]; done.
Qed.

Lemma image_name_inj (n m : N) : image_name n = image_name m → n = m.
Proof. intros H. by apply format_06d_inj, (sapp_inv_tail _ _ ".png"). Qed.

Lemma times_path (D : string) : join D "times.txt" = dir_prefix D +:+ "times.txt".
Proof. by apply join_relative. Qed.

Lemma calib_path (D : string) : join D "calib.txt" = dir_prefix D +:+ "calib.txt".
Proof. by apply join_relative. Qed.

Lemma image_0_path (D : string) (n : N) :
  join (join D "image_0") (image_name n)
  = dir_prefix D +:+ "image_0/" +:+ image_name n.
Proof.
  rewrite (join_relative D) by done.
  rewrite join_relative
    by (apply startswith_sep_digits;
        [apply format_06d_nonempty | apply all_digits_format_06d]).
  rewrite dir_prefix_app by done. by rewrite !sapp_assoc.
Qed.

Lemma image_1_path (D : string) (n : N) :
  join (join D "image_1") (image_name n)
  = dir_prefix D +:+ "image_1/" +:+ image_name n.
Proof.
  rewrite (join_relative D) by done.
  rewrite join_relative
    by (apply startswith_sep_digits;
        [apply format_06d_nonempty | apply all_digits_format_06d]).
  rewrite dir_prefix_app by done. by rewrite !sapp_assoc.
Qed.

Ltac path_neq :=
  let H := fresh in
  intros H; rewrite ?times_path, ?calib_path, ?image_0_path, ?image_1_path in H;
  apply String.app_inj in H; try discriminate H.

Lemma times_ne_calib (D : string) : join D "times.txt" ≠ join D "calib.txt".
Proof. path_neq. Qed.

Lemma image_0_ne_times (D : string) (n : N) :
  join (join D "image_0") (image_name n) ≠ join D "times.txt".
Proof. path_neq. Qed.

Lemma image_1_ne_times (D : string) (n : N) :
  join (join D "image_1") (image_name n) ≠ join D "times.txt".
Proof. path_neq. Qed.

Lemma image_0_ne_calib (D : string) (n : N) :
  join (join D "image_0") (image_name n) ≠ join D "calib.txt".
Proof. path_neq. Qed.

Lemma image_1_ne_calib (D : string) (n : N) :
  join (join D "image_1") (image_name n) ≠ join D "calib.txt".
Proof. path_neq. Qed.

Lemma image_0_ne_image_1 (D : string) (n m : N) :
  join (join D "image_0") (image_name n) ≠ join (join D "image_1") (image_name m).
Proof. path_neq. Qed.

Lemma image_0_inj (D : string) (n m : N) :
  join (join D "image_0") (image_name n) = join (join D "image_0") (image_name m)
  → n = m.
Proof.
  intros H. rewrite !image_0_path in H. apply String.app_inj in H.
  apply (String.app_inj "image_0/") in H. by apply image_name_inj.
Qed.

Lemma image_1_inj (D : string) (n m : N) :
  join (join D "image_1") (image_name n) = join (join D "image_1") (image_name m)
  → n = m.
Proof.
  intros H. rewrite !image_1_path in H. apply String.app_inj in H.
  apply (String.app_inj "image_1/") in H. by apply image_name_inj.
Qed.

End PathFacts.

Module LoopFacts.
Import Str StrFacts Fmt FmtFacts Path PathFacts.

Lemma trace_log e w : trace (log e w) = trace w ++ [e].
Proof. done. Qed.

Section Loop.

Variable D : string.
Let A0 := join D "image_0".
Let A1 := join D "image_1".
Let tf := join D "times.txt".

Lemma export_loop_count rs n w :
  (export_loop A0 A1 tf rs n w).1 = (n + N.of_nat (length (successes rs)))%N.
Proof.
  revert n w. induction rs as [|[st f] rs IH]; intros n w; simpl.
  - lia.
  - destruct (decide (st = SUCCESS)) as [->|Hst].
    + rewrite IH. simpl. lia.
    + destruct st; simpl; try lia. done.
Qed.

Lemma export_loop_trace rs n w :
  trace (export_loop A0 A1 tf rs n w).2
  = trace w ++ frames_events A0 A1 tf n (successes rs)
      ++ [CamGrab (final_status rs)].
Proof.
  revert n w. induction rs as [|[st f] rs IH]; intros n w; simpl.
  - done.
  - destruct (decide (st = SUCCESS)) as [->|Hst].
    + rewrite IH. simpl. rewrite <- !List.app_assoc. done.
    + destruct st; simpl; done.
Qed.

Lemma export_loop_dirs rs n w :
  dirs (export_loop A0 A1 tf rs n w).2 = dirs w.
Proof.
  revert n w. induction rs as [|[st f] rs IH]; intros n w; simpl; [done|].
  destruct (decide (st = SUCCESS)) as [->|Hst]; [|done]. by rewrite IH.
Qed.

(** The loop writes to the timestamp log and to the images numbered from
    the current frame count on, and nowhere else. *)
Lemma export_loop_frame rs n w p :
  p ≠ tf →
  (∀ i, (n <= i < n + N.of_nat (length (successes rs)))%N →
        p ≠ join A0 (image_name i) ∧ p ≠ join A1 (image_name i)) →
  files (export_loop A0 A1 tf rs n w).2 !! p = files w !! p.
Proof.
  revert n w. induction rs as [|[st f] rs IH]; intros n w Htf Himg; simpl; [done|].
  destruct (decide (st = SUCCESS)) as [->|Hst]; [|done].
  simpl in Himg.
  rewrite IH; [|done|intros i Hi; apply Himg; lia].
  destruct (Himg n) as [H0 H1]; [lia|]. simpl.
  rewrite !lookup_insert_ne by done. done.
Qed.

Lemma export_loop_times rs n w t :
  files w !! tf = Some (Text t) →
  files (export_loop A0 A1 tf rs n w).2 !! tf
  = Some (Text (t +:+ times_text (successes rs))).
Proof.
  revert n w t. induction rs as [|[st f] rs IH]; intros n w t Ht; simpl.
  - by rewrite sapp_nil_r.
  - destruct (decide (st = SUCCESS)) as [->|Hst].
    + erewrite IH.
      * by rewrite sapp_assoc.
      * simpl. rewrite lookup_insert_eq.
        rewrite !lookup_insert_ne
          by (apply image_0_ne_times || apply image_1_ne_times).
        by rewrite Ht.
    + destruct st; simpl; by rewrite ?sapp_nil_r.
Qed.

Lemma export_loop_images rs n w i f :
  successes rs !! i = Some f →
  files (export_loop A0 A1 tf rs n w).2 !! join A0 (image_name (n + N.of_nat i))
    = Some (Png (first3 (image f LEFT)))
  ∧ files (export_loop A0 A1 tf rs n w).2 !! join A1 (image_name (n + N.of_nat i))
    = Some (Png (first3 (image f RIGHT))).
Proof.
  revert n w i. induction rs as [|[st g] rs IH]; intros n w i Hi; simpl in *; [done|].
  destruct (decide (st = SUCCESS)) as [->|Hst]; [|by destruct st].
  destruct i as [|i]; simpl in Hi.
  - injection Hi as ->. rewrite N.add_0_r.
    rewrite !export_loop_frame; simpl.
    + rewrite (lookup_insert_ne _ tf) by (apply not_eq_sym, image_0_ne_times).
      rewrite (lookup_insert_ne _ tf) by (apply not_eq_sym, image_1_ne_times).
      rewrite lookup_insert_eq.
      rewrite lookup_insert_ne by (apply not_eq_sym, image_0_ne_image_1).
      by rewrite lookup_insert_eq.
    + apply image_1_ne_times.
    + intros j Hj. split.
      * apply not_eq_sym, image_0_ne_image_1.
      * intros ?%image_1_inj. lia.
    + apply image_0_ne_times.
    + intros j Hj. split.
      * intros ?%image_0_inj. lia.
      * apply image_0_ne_image_1.
  - replace (n + N.of_nat (S i))%N with ((n + 1) + N.of_nat i)%N by lia.
    by apply IH.
Qed.

(** Only the contents left by the loop matter for what it leaves in a
    world with more files. *)
Lemma export_loop_union rs n w w' (m : gmap string Content) :
  is_Some (files w !! tf) → files w' = files w ∪ m →
  files (export_loop A0 A1 tf rs n w').2
  = files (export_loop A0 A1 tf rs n w).2 ∪ m.
Proof.
  revert n w w'. induction rs as [|[st f] rs IH]; intros n w w' Hs Hw; simpl; [done|].
  destruct (decide (st = SUCCESS)) as [->|Hst]; [|done].
  apply IH; simpl.
  - by rewrite lookup_insert_eq.
  - rewrite !lookup_insert_ne
      by (apply image_0_ne_times || apply image_1_ne_times).
    rewrite Hw. rewrite !insert_union_l. do 3 f_equal.
    destruct Hs as [c Hc]. by rewrite (lookup_union_Some_l _ _ _ _ Hc), Hc.
Qed.

End Loop.

End LoopFacts.

Module MainFacts.
Import Str StrFacts Fmt FmtFacts Path PathFacts LoopFacts.

#[local] Arguments Path.join : simpl never.
#[local] Arguments Path.ancestors : simpl never.
#[local] Arguments export_loop : simpl never.
#[local] Arguments P0_line : simpl never.
#[local] Arguments P1_line : simpl never.

Section Run.

Variables (rec : Recording) (input : string) (od : option string) (w : World).
Let D := resolve_output_dir input od.
Let A0 := join D "image_0".
Let A1 := join D "image_1".
Let tf := join D "times.txt".
Let cf := join D "calib.txt".
Let frames := successes (grabs rec).
Let c := calibration_parameters rec.

Lemma failure_outcome :
  open_status rec ≠ SUCCESS →
  zed2_to_kitti rec input od w
  = SystemExit 1
      {| dirs := dirs_after D w;
         files := <[tf := Text ""]> (files w);
         trace := trace w ++ setup_events D input
                    ++ [CamOpen input (open_status rec);
                        Print (FailedToOpen (open_status rec))] |}.
Proof.
  intros H. unfold zed2_to_kitti. destruct (decide _) as [_|E]; [|done].
  unfold print, log, makedirs, open_w. simpl. f_equal. f_equal.
  rewrite <- !List.app_assoc. done.
Qed.

Lemma success_outcome :
  open_status rec = SUCCESS →
  zed2_to_kitti rec input od w
  = Return
      {| dirs := dirs_after D w;
         files := <[cf := Text (calib_text c)]> (files (after_loop rec D input w));
         trace := trace w ++ setup_events D input
                    ++ CamOpen input SUCCESS :: replicate 4 CamGetCameraInformation
                    ++ loop_events D (grabs rec)
                    ++ closing_events D (N.of_nat (length frames)) c |}.
Proof.
  intros H. unfold zed2_to_kitti. rewrite H.
  destruct (decide _) as [E|_]; [done|].
  fold D. fold A0 A1 tf cf.
  set (w0 := log CamGetCameraInformation _).
  assert (Hw0 : w0 = before_loop D input w).
  { unfold w0, before_loop, print, log, makedirs, open_w. simpl. f_equal.
    rewrite <- !List.app_assoc. done. }
  rewrite Hw0.
  pose proof (export_loop_count D (grabs rec) 0 (before_loop D input w)) as Hn.
  pose proof (export_loop_trace D (grabs rec) 0 (before_loop D input w)) as Ht.
  pose proof (export_loop_dirs D (grabs rec) 0 (before_loop D input w)) as Hd.
  unfold after_loop. fold A0 A1 tf in Hn, Ht, Hd |- *.
  destruct (export_loop A0 A1 tf (grabs rec) 0%N (before_loop D input w)) as [n w1].
  simpl in Hn, Ht, Hd. rewrite N.add_0_l in Hn. subst n.
  unfold print, log, file_close, open_w, write_lines, calib_str, file_write.
  simpl. f_equal. f_equal.
  - done.
  - rewrite !lookup_insert_eq. simpl. rewrite !insert_insert_eq.
    unfold calib_text. fold c. by rewrite !sapp_assoc.
  - rewrite Ht. simpl. unfold loop_events, closing_events. fold A0 A1 tf cf frames.
    rewrite <- !List.app_assoc. simpl. rewrite <- ?List.app_assoc. done.
Qed.

Lemma after_loop_times :
  files (after_loop rec D input w) !! tf = Some (Text (times_text frames)).
Proof.
  unfold after_loop. fold A0 A1 tf.
  rewrite (export_loop_times D _ _ _ ""); [done|]. simpl. apply lookup_insert_eq.
Qed.

Lemma after_loop_images i f :
  frames !! i = Some f →
  files (after_loop rec D input w) !! join A0 (image_name (N.of_nat i))
    = Some (Png (first3 (image f LEFT)))
  ∧ files (after_loop rec D input w) !! join A1 (image_name (N.of_nat i))
    = Some (Png (first3 (image f RIGHT))).
Proof.
  intros H. unfold after_loop.
  by apply (export_loop_images D (grabs rec) 0 _ i f).
Qed.

Lemma after_loop_other p :
  p ≠ tf →
  (∀ i, (i < length frames)%nat →
        p ≠ join A0 (image_name (N.of_nat i)) ∧ p ≠ join A1 (image_name (N.of_nat i))) →
  files (after_loop rec D input w) !! p = files w !! p.
Proof.
  intros Htf Hp. unfold after_loop.
  rewrite (export_loop_frame D); [|done|].
  - simpl. by rewrite lookup_insert_ne.
  - intros i Hi. specialize (Hp (N.to_nat i)). rewrite N2Nat.id in Hp.
    apply Hp. fold frames in Hi. lia.
Qed.

(** The files a run leaves are those it writes on top of those it
    found. *)
Lemma after_loop_union :
  files (after_loop rec D input w)
  = files (after_loop rec D input {| dirs := ∅; files := ∅; trace := [] |})
      ∪ files w.
Proof.
  unfold after_loop. apply (export_loop_union D).
  - simpl. rewrite lookup_insert_eq. done.
  - simpl. by rewrite <- insert_union_l, (left_id_L ∅ (∪)).
Qed.

End Run.
End MainFacts.

Module CalibFacts.
Import Str StrFacts Fmt FmtFacts.

Ltac normalize_app := rewrite ?sapp_assoc, ?sapp_cons, ?sapp_nil_l.

Lemma P0_line_join a b c d :
  P0_line a b c d = join_with " " ("P0:" :: P0_values a b c d).
Proof. unfold P0_line, P0_values, join_with. by normalize_app. Qed.

Lemma P1_line_join a b t c d :
  P1_line a b t c d = join_with " " ("P1:" :: P1_values a b t c d).
Proof. unfold P1_line, P1_values, join_with. by normalize_app. Qed.

Lemma P0_line_tokens a b c d :
  split_on " " (P0_line a b c d) = "P0:" :: P0_values a b c d.
Proof.
  rewrite P0_line_join. apply split_join; [done|].
  repeat constructor; try apply format_9f_no_space.
Qed.

Lemma P1_line_tokens a b t c d :
  split_on " " (P1_line a b t c d) = "P1:" :: P1_values a b t c d.
Proof.
  rewrite P1_line_join. apply split_join; [done|].
  repeat constructor; try apply format_9f_no_space.
Qed.

Lemma occurs_join_with (x y : ascii) (l : list string) :
  Ascii.eqb y x = false → Forall (fun t => occurs x t = false) l →
  occurs x (join_with y l) = false.
Proof.
  intros Hxy. induction l as [|t l IH]; [done|].
  intros [Ht Hl]%Forall_cons. destruct l as [|t' l]; [done|].
  change (join_with y (t :: t' :: l)) with (t +:+ String y (join_with y (t' :: l))).
  rewrite occurs_app, occurs_cons, Ht, Hxy, IH by done. done.
Qed.

Lemma P0_line_no_newline a b c d : occurs newline (P0_line a b c d) = false.
Proof.
  rewrite P0_line_join. apply occurs_join_with; [done|].
  repeat constructor; try apply format_9f_no_newline.
Qed.

Lemma P1_line_no_newline a b t c d : occurs newline (P1_line a b t c d) = false.
Proof.
  rewrite P1_line_join. apply occurs_join_with; [done|].
  repeat constructor; try apply format_9f_no_newline.
Qed.

Lemma lines_two (l0 l1 : string) :
  occurs newline l0 = false → occurs newline l1 = false →
  lines (l0 +:+ nl +:+ l1 +:+ nl) = Some [l0; l1].
Proof.
  intros H0 H1. unfold lines, nl. normalize_app.
  rewrite !split_on_app by done. done.
Qed.

Lemma calib_text_lines (c : CalibrationParameters) :
  lines (calib_text c)
  = Some [P0_line (fx (left_cam c)) (cx (left_cam c)) (fy (left_cam c))
            (cy (left_cam c));
          P1_line (fx (right_cam c)) (cx (right_cam c))
            (tx_of (fx (left_cam c)) (baseline_of c))
            (fy (right_cam c)) (cy (right_cam c))].
Proof.
  unfold calib_text. apply lines_two.
  - apply P0_line_no_newline.
  - apply P1_line_no_newline.
Qed.

End CalibFacts.

(** ** A whole run *)

Module RunFacts.
Import Str StrFacts Fmt FmtFacts Path PathFacts LoopFacts MainFacts.

Section Run.

Variables (rec : Recording) (args : Args) (w : World).
Let D := resolve_output_dir (input_file args) (output_dir args).
Let frames := successes (grabs rec).
Let final := world_of (main rec args w).

Hypothesis opened : open_status rec = SUCCESS.

Lemma success_calib :
  files final !! join D "calib.txt"
  = Some (Text (calib_text (calibration_parameters rec))).
Proof.
  unfold final, main. rewrite success_outcome by done. simpl.
  apply lookup_insert_eq.
Qed.

Lemma success_times :
  files final !! join D "times.txt" = Some (Text (times_text frames)).
Proof.
  unfold final, main. rewrite success_outcome by done. simpl.
  rewrite lookup_insert_ne by (apply not_eq_sym, times_ne_calib).
  apply after_loop_times.
Qed.

Lemma success_images i f :
  frames !! i = Some f →
  files final !! join (join D "image_0") (image_name (N.of_nat i))
    = Some (Png (first3 (image f LEFT)))
  ∧ files final !! join (join D "image_1") (image_name (N.of_nat i))
    = Some (Png (first3 (image f RIGHT))).
Proof.
  intros H. unfold final, main. rewrite success_outcome by done. simpl.
  rewrite lookup_insert_ne by (apply not_eq_sym, image_0_ne_calib).
  rewrite lookup_insert_ne by (apply not_eq_sym, image_1_ne_calib).
  by apply after_loop_images.
Qed.

Lemma success_other p :
  p ≠ join D "times.txt" → p ≠ join D "calib.txt" →
  (∀ i, (i < length frames)%nat →
        p ≠ join (join D "image_0") (image_name (N.of_nat i))
        ∧ p ≠ join (join D "image_1") (image_name (N.of_nat i))) →
  files final !! p = files w !! p.
Proof.
  intros Ht Hc Hi. unfold final, main. rewrite success_outcome by done. simpl.
  rewrite lookup_insert_ne by done. by apply after_loop_other.
Qed.

Lemma success_trace :
  trace final
  = trace w ++ setup_events D (input_file args)
      ++ CamOpen (input_file args) SUCCESS :: replicate 4 CamGetCameraInformation
      ++ loop_events D (grabs rec)
      ++ closing_events D (N.of_nat (length frames)) (calibration_parameters rec).
Proof. unfold final, main. by rewrite success_outcome. Qed.

Lemma success_exit : exit_code (main rec args w) = 0.
Proof. unfold main. by rewrite success_outcome. Qed.

End Run.

End RunFacts.

(** ** The output directory *)

Module DirFacts.
Import Str StrFacts Fmt FmtFacts Path PathFacts LoopFacts MainFacts RunFacts.

Lemma substring_all (s : string) : String.substring 0 (String.length s) s = s.
Proof. induction s as [|x s IH]; simpl; [done|]. by rewrite IH. Qed.

Lemma substring_split (n : nat) (s : string) :
  (n <= String.length s)%nat →
  String.substring 0 n s +:+ String.substring n (String.length s - n) s = s.
Proof.
  revert n. induction s as [|x s IH]; intros [|n] H; simpl in H; try lia.
  - done.
  - rewrite Nat.sub_0_r. by rewrite substring_all.
  - simpl. rewrite sapp_cons. f_equal. apply IH. lia.
Qed.

Lemma rfind_from_bounds (c : ascii) (s : string) (i last : Z) :
  -1 <= last < i →
  -1 <= rfind_from c s i last < i + Z.of_nat (String.length s).
Proof.
  revert i last. induction s as [|x s IH]; intros i last H; simpl; [lia|].
  specialize (IH (i + 1) (if Ascii.eqb x c then i else last)).
  destruct (Ascii.eqb x c); lia.
Qed.

(** The two parts [splitext] returns make up the path. *)
Lemma splitext_app (p : string) : (splitext p).1 +:+ (splitext p).2 = p.
Proof.
  unfold splitext. destruct (_ && _) eqn:E; simpl; [|apply sapp_nil_r].
  apply andb_prop in E as [E _]. apply Z.ltb_lt in E.
  pose proof (rfind_from_bounds "/" p 0 (-1) ltac:(lia)) as H1.
  pose proof (rfind_from_bounds "." p 0 (-1) ltac:(lia)) as H2.
  fold (rfind "/" p) in H1. fold (rfind "." p) in H2, E.
  unfold slice. rewrite Z.sub_0_r. simpl Z.to_nat at 1.
  replace (Z.to_nat (Z.of_nat (String.length p) - rfind "." p))
    with (String.length p - Z.to_nat (rfind "." p))%nat by lia.
  apply substring_split. lia.
Qed.

Lemma prefix_app (a b : string) : String.prefix a (a +:+ b) = true.
Proof.
  induction a as [|x a IH]; [by destruct b|].
  rewrite sapp_cons. simpl. by destruct (ascii_dec x x).
Qed.

Lemma under_relative (d rel : string) : under d (dir_prefix d +:+ rel) = true.
Proof. apply prefix_app. Qed.

Lemma frames_events_under (d : string) (n : N) (frames : list Frame) :
  touches_only d
    (frames_events (join d "image_0") (join d "image_1") (join d "times.txt")
       n frames).
Proof.
  revert n. induction frames as [|f frames IH]; intros n; [constructor|].
  simpl. repeat (constructor; [intros p [= <-]|]).
  - rewrite image_0_path. apply under_relative.
  - rewrite image_1_path. apply under_relative.
  - rewrite times_path. apply under_relative.
  - apply IH.
Qed.

Lemma setup_events_under (d input : string) : touches_only d (setup_events d input).
Proof.
  unfold setup_events. repeat (constructor; [intros p [= <-]|]); [..|constructor].
  all: rewrite join_relative by done; apply under_relative.
Qed.

Lemma closing_events_under (d : string) (n : N) (c : CalibrationParameters) :
  touches_only d (closing_events d n c).
Proof.
  unfold closing_events. simpl.
  repeat (constructor; [intros p [= <-]|]); [..|constructor].
  all: rewrite join_relative by done; apply under_relative.
Qed.

Lemma run_touches_only (rec : Recording) (args : Args) (w : World) :
  let d := resolve_output_dir (input_file args) (output_dir args) in
  ∃ events,
    trace (world_of (main rec args w)) = trace w ++ events
    ∧ touches_only d events
    ∧ setup_events d (input_file args) `prefix_of` events.
Proof.
  intros d. unfold main.
  destruct (decide (open_status rec = SUCCESS)) as [H|H].
  - rewrite success_outcome by done. cbn [world_of trace]. eexists. split; [done|].
    fold d. split; [|by eexists].
    unfold touches_only. rewrite Forall_app. split; [apply setup_events_under|].
    rewrite Forall_cons. split; [done|].
    rewrite !Forall_app. split; [by repeat constructor|].
    split; [|apply closing_events_under].
    unfold loop_events. rewrite Forall_app. split; [apply frames_events_under|].
    by repeat constructor.
  - rewrite failure_outcome by done. cbn [world_of trace]. eexists. split; [done|].
    fold d. split; [|by eexists].
    unfold touches_only. rewrite Forall_app. split; [apply setup_events_under|].
    by repeat constructor.
Qed.

End DirFacts.

(** ** The claims *)

(** C4: without [--output_dir] the output directory is the input path
    without its extension, followed by [_kitti_dataset], and it is
    [/data/run1_kitti_dataset] for the input [/data/run1.svo]; a given
    [--output_dir] is used as it is.  Every run begins by creating
    [image_0] and [image_1] in that directory and opening [times.txt]
    there, and every path it names lies in that directory. *)
Theorem output_dir_default_or_given :
  (∀ rec args w,
     let d := match output_dir args with
              | None => (Path.splitext (input_file args)).1 +:+ "_kitti_dataset"
              | Some given => given
              end in
     ∃ events,
       trace (world_of (main rec args w)) = trace w ++ events
       ∧ touches_only d events
       ∧ [Makedirs (Path.join d "image_0"); Makedirs (Path.join d "image_1");
          OpenW (Path.join d "times.txt")] `prefix_of` events)
  ∧ (∀ input, (Path.splitext input).1 +:+ (Path.splitext input).2 = input)
  ∧ Path.splitext "/data/run1.svo" = ("/data/run1", ".svo")
  ∧ resolve_output_dir "/data/run1.svo" None = "/data/run1_kitti_dataset"
  ∧ (∀ input given, resolve_output_dir input (Some given) = given).
Proof.
  split; [|split; [apply DirFacts.splitext_app|done]].
  intros rec args w d.
  destruct (DirFacts.run_touches_only rec args w) as (events & Ht & Hu & Hp).
  exists events. split; [done|]. split; [done|].
  destruct Hp as [rest ->]. by eexists.
Qed.

Module FailureFacts.
Import Path PathFacts MainFacts.

Lemma ancestors_self (p : string) : p ≠ "" → p ∈ ancestors p.
Proof.
  intros Hp. unfold ancestors. apply list_elem_of_filter. split; [done|].
  assert (H : ∀ pre s, pre +:+ s ∈ prefixes_go pre s).
  { intros pre s. revert pre. induction s as [|x s IH]; intros pre; simpl.
    - rewrite StrFacts.sapp_nil_r. apply list_elem_of_here.
    - apply elem_of_app. right.
      replace (pre +:+ String x s) with ((pre +:+ String x "") +:+ s)
        by (by rewrite StrFacts.sapp_assoc).
      apply IH. }
  apply (H "" p).
Qed.

Lemma join_relative_nonempty (a b : string) :
  startswith_sep b = false → b ≠ "" → join a b ≠ "".
Proof.
  intros H Hb E. rewrite join_relative in E by done.
  apply (f_equal String.length) in E. rewrite StrFacts.length_sapp in E.
  destruct b; [done|]. simpl in E. lia.
Qed.

Lemma image_dirs_made (d : string) (w : World) :
  join d "image_0" ∈ dirs_after d w ∧ join d "image_1" ∈ dirs_after d w.
Proof.
  unfold dirs_after. split.
  - apply elem_of_union_r, elem_of_union_l, elem_of_list_to_set, ancestors_self.
    by apply join_relative_nonempty.
  - apply elem_of_union_l, elem_of_list_to_set, ancestors_self.
    by apply join_relative_nonempty.
Qed.

End FailureFacts.

(** C1, as the specification states it, fails: when the recording of
    [/data/run1.svo] cannot be opened, the exit code is 1 but [times.txt]
    and the two image directories have been created. *)
Lemma open_failure_leaves_output_counterexample :
  let o := main Examples.rec_bad Examples.args0 Examples.empty_world in
  ¬ (exit_code o = 1
     ∧ files (world_of o) !! "/data/run1_kitti_dataset/times.txt" = None
     ∧ files (world_of o) !! "/data/run1_kitti_dataset/calib.txt" = None
     ∧ ("/data/run1_kitti_dataset/image_0" ∉ dirs (world_of o))
     ∧ ("/data/run1_kitti_dataset/image_1" ∉ dirs (world_of o))).
Proof.
  intros o (_ & H & _). vm_compute in H. discriminate H.
Qed.

(** C1, amended: when opening the recording fails, the program exits
    with code 1 after reporting the failure, without any further call on
    the handle; [calib.txt] and the images have not been written (the files
    are those found at the start, except for [times.txt]), but the
    directories [image_0] and [image_1] exist and [times.txt] has been
    created empty. *)
Theorem open_failure_exit_code_1 (rec : Recording) (args : Args) (w : World) :
  open_status rec ≠ SUCCESS →
  let d := resolve_output_dir (input_file args) (output_dir args) in
  let o := main rec args w in
  exit_code o = 1
  ∧ files (world_of o) = <[Path.join d "times.txt" := Text ""]> (files w)
  ∧ files (world_of o) !! Path.join d "calib.txt" = files w !! Path.join d "calib.txt"
  ∧ files (world_of o) !! Path.join d "times.txt" = Some (Text "")
  ∧ Path.join d "image_0" ∈ dirs (world_of o)
  ∧ Path.join d "image_1" ∈ dirs (world_of o)
  ∧ trace (world_of o)
    = trace w ++ setup_events d (input_file args)
        ++ [CamOpen (input_file args) (open_status rec);
            Print (FailedToOpen (open_status rec))].
Proof.
  intros H d o. unfold o, main. rewrite MainFacts.failure_outcome by done.
  cbn [exit_code world_of files dirs trace]. fold d.
  split; [done|]. split; [done|].
  split; [by rewrite lookup_insert_ne by apply PathFacts.times_ne_calib|].
  split; [apply lookup_insert_eq|].
  split; [apply FailureFacts.image_dirs_made|].
  split; [apply FailureFacts.image_dirs_made|done].
Qed.

Lemma open_failure_exit_code_1_witness :
  open_status Examples.rec_bad ≠ SUCCESS
  ∧ let o := main Examples.rec_bad Examples.args0 Examples.empty_world in
    exit_code o = 1
    ∧ files (world_of o) !! "/data/run1_kitti_dataset/times.txt" = Some (Text "")
    ∧ "/data/run1_kitti_dataset/image_0" ∈ dirs (world_of o).
Proof.
  assert (H : open_status Examples.rec_bad ≠ SUCCESS) by (simpl; discriminate).
  split; [exact H|].
  destruct (open_failure_exit_code_1 Examples.rec_bad Examples.args0
              Examples.empty_world H) as (H1 & _ & _ & H4 & H5 & _).
  split; [exact H1|]. split; [exact H4|exact H5].
Defined.

(** C2, as the specification states it, fails: in the [calib.txt] of a
    run on a recording with finite calibration values, the constant
    entries of the matrices are written [0.0] and [1.0], with one decimal. *)
Lemma calib_values_9_decimals_counterexample :
  let o := main Examples.rec0 Examples.args0 Examples.empty_world in
  let text := text_of (files (world_of o) !! "/data/run1_kitti_dataset/calib.txt") in
  ¬ (calib_as_claimed text = true)
  ∧ ∃ l0 l1, Str.lines text = Some [l0; l1]
      ∧ Str.split_on " " l0 !! 2%nat = Some "0.0"
      ∧ Str.decimals "0.0" = Some 1%nat.
Proof.
  intros o text. split.
  - intros H. vm_compute in H. discriminate H.
  - eexists _, _. split; [vm_compute; reflexivity|]. split; reflexivity.
Qed.

(** C2, amended: [calib.txt] has exactly two lines; each is a label, [P0:]
    or [P1:], followed by exactly twelve values separated by single spaces;
    the values taken from the calibration ([fx], [cx], [fy], [cy] of the
    camera, and [tx] on the line of P1) are written with exactly nine
    digits after the decimal point when they are finite, and the other
    entries are the constants [0.0] and [1.0]. *)
Theorem calib_two_lines_of_12_values (rec : Recording) (args : Args) (w : World) :
  open_status rec = SUCCESS →
  let d := resolve_output_dir (input_file args) (output_dir args) in
  let c := calibration_parameters rec in
  let tx := Float64.mul (Float64.neg (fx (left_cam c))) (baseline_of c) in
  ∃ text l0 l1,
    files (world_of (main rec args w)) !! Path.join d "calib.txt" = Some (Text text)
    ∧ Str.lines text = Some [l0; l1]
    ∧ Str.split_on " " l0
      = ["P0:"; Fmt.format_9f (fx (left_cam c)); "0.0";
         Fmt.format_9f (cx (left_cam c)); "0.0";
         "0.0"; Fmt.format_9f (fy (left_cam c));
         Fmt.format_9f (cy (left_cam c)); "0.0";
         "0.0"; "0.0"; "1.0"; "0.0"]
    ∧ Str.split_on " " l1
      = ["P1:"; Fmt.format_9f (fx (right_cam c)); "0.0";
         Fmt.format_9f (cx (right_cam c)); Fmt.format_9f tx;
         "0.0"; Fmt.format_9f (fy (right_cam c));
         Fmt.format_9f (cy (right_cam c)); "0.0";
         "0.0"; "0.0"; "1.0"; "0.0"]
    ∧ ∀ v, Float64.is_finite v = true → Str.decimals (Fmt.format_9f v) = Some 9%nat.
Proof.
  intros H d c tx. eexists _, _, _.
  split; [by apply RunFacts.success_calib|].
  split; [apply CalibFacts.calib_text_lines|].
  split; [apply CalibFacts.P0_line_tokens|].
  split; [apply CalibFacts.P1_line_tokens|].
  intros v Hv. by apply FmtFacts.format_f_finite.
Qed.

Lemma calib_two_lines_of_12_values_witness :
  open_status Examples.rec0 = SUCCESS
  ∧ ∃ text l0 l1,
      files (world_of (main Examples.rec0 Examples.args0 Examples.empty_world))
        !! "/data/run1_kitti_dataset/calib.txt" = Some (Text text)
      ∧ Str.lines text = Some [l0; l1]
      ∧ length (Str.split_on " " l0) = 13%nat
      ∧ length (Str.split_on " " l1) = 13%nat.
Proof.
  split; [reflexivity|].
  destruct (calib_two_lines_of_12_values Examples.rec0 Examples.args0
              Examples.empty_world eq_refl)
    as (text & l0 & l1 & H1 & H2 & H3 & H4 & _).
  exists text, l0, l1. split; [exact H1|]. split; [exact H2|].
  rewrite H3, H4. split; reflexivity.
Defined.

(** The literals [0.12] and [1e-9] denote the binary64 numbers nearest to
    12/100 and to 1/10^9. *)
Lemma literals_nearest :
  Float64.of_decimal 12 2 = S754_finite false 8646911284551352 (-56)
  ∧ 2 * Z.abs (8646911284551352 * 100 - 12 * 2 ^ 56) <= 100
  ∧ one_e_minus_9 = S754_finite false 4835703278458517 (-82)
  ∧ 2 * Z.abs (4835703278458517 * 10 ^ 9 - 2 ^ 82) <= 10 ^ 9.
Proof.
  split; [by vm_compute|]. split; [by vm_compute|].
  split; [by vm_compute|]. by vm_compute.
Qed.

(** C3: the translation is [tx = -fx_left * baseline], computed in
    binary64, and it is written as the fourth value of the line of P1;
    for [fx_left = 700.0] and [baseline = 0.12] it is [-84.0], written
    [-84.000000000]. *)
Theorem tx_is_fourth_value_of_P1 (rec : Recording) (args : Args) (w : World) :
  open_status rec = SUCCESS →
  let d := resolve_output_dir (input_file args) (output_dir args) in
  let c := calibration_parameters rec in
  (∃ text l0 l1,
     files (world_of (main rec args w)) !! Path.join d "calib.txt" = Some (Text text)
     ∧ Str.lines text = Some [l0; l1]
     ∧ take 3 (Str.split_on " " l1) = ["P1:"; Fmt.format_9f (fx (right_cam c)); "0.0"]
     ∧ tail (Str.split_on " " l1) !! 3%nat
       = Some (Fmt.format_9f
                 (Float64.mul (Float64.neg (fx (left_cam c))) (baseline_of c))))
  ∧ Float64.mul (Float64.neg (Float64.of_int 700)) (Float64.of_decimal 12 2)
    = Float64.neg (Float64.of_int 84)
  ∧ Fmt.format_9f (Float64.neg (Float64.of_int 84)) = "-84.000000000".
Proof.
  intros H d c. split; [|split; by vm_compute].
  eexists _, _, _. split; [by apply RunFacts.success_calib|].
  split; [apply CalibFacts.calib_text_lines|].
  rewrite CalibFacts.P1_line_tokens. split; reflexivity.
Qed.

Lemma tx_is_fourth_value_of_P1_witness :
  open_status Examples.rec0 = SUCCESS
  ∧ fx (left_cam (calibration_parameters Examples.rec0)) = Float64.of_int 700
  ∧ baseline_of (calibration_parameters Examples.rec0) = Float64.of_decimal 12 2
  ∧ ∃ text l0 l1,
      files (world_of (main Examples.rec0 Examples.args0 Examples.empty_world))
        !! "/data/run1_kitti_dataset/calib.txt" = Some (Text text)
      ∧ Str.lines text = Some [l0; l1]
      ∧ tail (Str.split_on " " l1) !! 3%nat = Some "-84.000000000".
Proof.
  split; [reflexivity|]. split; [reflexivity|]. split; [reflexivity|].
  destruct (tx_is_fourth_value_of_P1 Examples.rec0 Examples.args0
              Examples.empty_world eq_refl)
    as ((text & l0 & l1 & H1 & H2 & _ & H3) & _ & _).
  exists text, l0, l1. split; [exact H1|]. split; [exact H2|].
  rewrite H3. vm_compute. reflexivity.
Defined.

(** C10: the contents of [calib.txt] are a function of the calibration
    block alone: two runs on recordings with the same calibration, whatever
    their frames, inputs, output directories and initial worlds, write the
    same [calib.txt]; a recording without frames gives the same two lines
    of a label and twelve values. *)
Theorem calib_depends_only_on_calibration
    (rec1 rec2 : Recording) (args1 args2 : Args) (w1 w2 : World) :
  open_status rec1 = SUCCESS → open_status rec2 = SUCCESS →
  calibration_parameters rec1 = calibration_parameters rec2 →
  let d1 := resolve_output_dir (input_file args1) (output_dir args1) in
  let d2 := resolve_output_dir (input_file args2) (output_dir args2) in
  let c := calibration_parameters rec1 in
  let no_frames := {| open_status := SUCCESS; calibration_parameters := c;
                      grabs := [] |} in
  files (world_of (main rec1 args1 w1)) !! Path.join d1 "calib.txt"
  = files (world_of (main rec2 args2 w2)) !! Path.join d2 "calib.txt"
  ∧ files (world_of (main rec1 args1 w1)) !! Path.join d1 "calib.txt"
    = Some (Text (calib_text c))
  ∧ files (world_of (main no_frames args1 w1)) !! Path.join d1 "calib.txt"
    = Some (Text (calib_text c))
  ∧ files (world_of (main no_frames args1 w1)) !! Path.join d1 "times.txt"
    = Some (Text "")
  ∧ ∃ l0 l1,
      Str.lines (calib_text c) = Some [l0; l1]
      ∧ take 1 (Str.split_on " " l0) = ["P0:"]
      ∧ take 1 (Str.split_on " " l1) = ["P1:"]
      ∧ length (Str.split_on " " l0) = 13%nat
      ∧ length (Str.split_on " " l1) = 13%nat.
Proof.
  intros H1 H2 Hc d1 d2 c no_frames.
  split.
  { etrans; [by apply RunFacts.success_calib|].
    symmetry. rewrite Hc. by apply RunFacts.success_calib. }
  split; [by apply RunFacts.success_calib|].
  split; [by apply (RunFacts.success_calib no_frames)|].
  split; [by apply (RunFacts.success_times no_frames)|].
  eexists _, _. split; [apply CalibFacts.calib_text_lines|].
  rewrite CalibFacts.P0_line_tokens, CalibFacts.P1_line_tokens. done.
Qed.

Lemma calib_depends_only_on_calibration_witness :
  let rec2 := {| open_status := SUCCESS;
                 calibration_parameters := Examples.calib0;
                 grabs := [(SUCCESS, Examples.frame0 42)] |} in
  let args2 := {| input_file := "b.svo"; output_dir := Some "out" |} in
  open_status Examples.rec0 = SUCCESS ∧ open_status rec2 = SUCCESS
  ∧ calibration_parameters Examples.rec0 = calibration_parameters rec2
  ∧ files (world_of (main Examples.rec0 Examples.args0 Examples.empty_world))
      !! "/data/run1_kitti_dataset/calib.txt"
    = files (world_of (main rec2 args2 Examples.empty_world)) !! "out/calib.txt".
Proof.
  intros rec2 args2.
  split; [reflexivity|]. split; [reflexivity|]. split; [reflexivity|].
  exact (proj1 (calib_depends_only_on_calibration Examples.rec0 rec2
                  Examples.args0 args2 Examples.empty_world Examples.empty_world
                  eq_refl eq_refl eq_refl)).
Defined.

Module RerunFacts.
Import Path PathFacts MainFacts.

Lemma union_union_idem (A B X : gset string) :
  A ∪ (B ∪ (A ∪ (B ∪ X))) = A ∪ (B ∪ X).
Proof. apply set_eq. intros x. rewrite !elem_of_union. tauto. Qed.

Lemma insert_union_idem (k : string) (v : Content) (F M : gmap string Content) :
  <[k := v]> (F ∪ <[k := v]> (F ∪ M)) = <[k := v]> (F ∪ M).
Proof.
  apply map_eq. intros i. rewrite !lookup_insert. case_decide; [done|].
  rewrite !lookup_union, lookup_insert_ne, lookup_union by done.
  by destruct (F !! i), (M !! i).
Qed.

Section Rerun.

Variables (rec : Recording) (args : Args) (w w' : World).
Let d := resolve_output_dir (input_file args) (output_dir args).
Let o1 := main rec args w.
Let o2 := main rec args (world_of o1).

Lemma rerun_success :
  open_status rec = SUCCESS →
  files (world_of o2) = files (world_of o1)
  ∧ dirs (world_of o2) = dirs (world_of o1)
  ∧ exit_code o2 = exit_code o1
  ∧ files (world_of (main rec args w')) !! join d "times.txt"
    = files (world_of o1) !! join d "times.txt".
Proof.
  intros H. unfold o2, o1, main. rewrite !success_outcome by done.
  cbn [world_of files dirs exit_code].
  split; [|split; [|split; [done|]]].
  - rewrite (after_loop_union rec (input_file args) (output_dir args) w).
    rewrite (after_loop_union rec (input_file args) (output_dir args)
               {| dirs := _; files := _; trace := _ |}).
    cbn [files]. apply insert_union_idem.
  - unfold dirs_after. cbn [dirs]. apply union_union_idem.
  - rewrite !lookup_insert_ne by apply not_eq_sym, times_ne_calib.
    pose proof (after_loop_times rec (input_file args) (output_dir args) w) as E1.
    pose proof (after_loop_times rec (input_file args) (output_dir args) w') as E2.
    cbv zeta in E1, E2. unfold d. by rewrite E1, E2.
Qed.

Lemma rerun_failure :
  open_status rec ≠ SUCCESS →
  files (world_of o2) = files (world_of o1)
  ∧ dirs (world_of o2) = dirs (world_of o1)
  ∧ exit_code o2 = exit_code o1
  ∧ files (world_of (main rec args w')) !! join d "times.txt"
    = files (world_of o1) !! join d "times.txt".
Proof.
  intros H. unfold o2, o1, main. rewrite !failure_outcome by done.
  cbn [world_of files dirs exit_code].
  split; [apply insert_insert_eq|]. split; [|split; [done|]].
  - unfold dirs_after. cbn [dirs]. apply union_union_idem.
  - unfold d. by rewrite !lookup_insert_eq.
Qed.

End Rerun.

End RerunFacts.

(** C8: a second run on the same input and output directory, started in
    the world the first run left, leaves [times.txt] and [calib.txt] as the
    first run did, indeed every file and directory; and what [times.txt]
    holds after a run does not depend on the world the run started in. *)
Theorem rerun_reproduces_files (rec : Recording) (args : Args) (w w' : World) :
  let d := resolve_output_dir (input_file args) (output_dir args) in
  let o1 := main rec args w in
  let o2 := main rec args (world_of o1) in
  files (world_of o2) !! Path.join d "times.txt"
  = files (world_of o1) !! Path.join d "times.txt"
  ∧ files (world_of o2) !! Path.join d "calib.txt"
    = files (world_of o1) !! Path.join d "calib.txt"
  ∧ files (world_of o2) = files (world_of o1)
  ∧ dirs (world_of o2) = dirs (world_of o1)
  ∧ exit_code o2 = exit_code o1
  ∧ files (world_of (main rec args w')) !! Path.join d "times.txt"
    = files (world_of o1) !! Path.join d "times.txt".
Proof.
  intros d o1 o2.
  assert (Hf : files (world_of o2) = files (world_of o1)
               ∧ dirs (world_of o2) = dirs (world_of o1)
               ∧ exit_code o2 = exit_code o1
               ∧ files (world_of (main rec args w')) !! Path.join d "times.txt"
                 = files (world_of o1) !! Path.join d "times.txt").
  { destruct (decide (open_status rec = SUCCESS)) as [H|H].
    - by apply RerunFacts.rerun_success.
    - by apply RerunFacts.rerun_failure. }
  destruct Hf as (Hf & Hd & He & Hw). by rewrite Hf.
Qed.

Module TraceFacts.
Import Str StrFacts Fmt FmtFacts Path PathFacts LoopFacts MainFacts.

Section Events.

Variables A0 A1 tf : string.

Lemma frames_events_calls (n : N) (frames : list Frame) :
  Forall (fun e => e ≠ CamGetCameraInformation ∧ e ≠ CamClose)
    (frames_events A0 A1 tf n frames).
Proof.
  revert n. induction frames as [|f frames IH]; intros n; [constructor|].
  simpl. repeat (constructor; [done|]). apply IH.
Qed.

Lemma frames_events_length (n : N) (frames : list Frame) :
  length (frames_events A0 A1 tf n frames) = (7 * length frames)%nat.
Proof.
  revert n. induction frames as [|f frames IH]; intros n; [done|].
  simpl. rewrite IH. lia.
Qed.

(** The calls of the iteration that exports the [i]th frame. *)
Lemma frames_events_lookup (n : N) (frames : list Frame) (i : nat) (f : Frame) :
  frames !! i = Some f →
  ∃ before after,
    frames_events A0 A1 tf n frames
    = before ++ frame_events A0 A1 tf (n + N.of_nat i) f ++ after
    ∧ length before = (7 * i)%nat.
Proof.
  revert n i. induction frames as [|g frames IH]; intros n i H; [done|].
  destruct i as [|i]; simpl in H.
  - injection H as ->. exists [], (frames_events A0 A1 tf (n + 1) frames).
    rewrite N.add_0_r. done.
  - destruct (IH (n + 1)%N i H) as (before & after & E & Hl).
    exists (frame_events A0 A1 tf n g ++ before), after.
    replace (n + N.of_nat (S i))%N with (n + 1 + N.of_nat i)%N by lia.
    split.
    + change (frames_events A0 A1 tf n (g :: frames))
        with (frame_events A0 A1 tf n g ++ frames_events A0 A1 tf (n + 1) frames).
      rewrite E. by rewrite <- List.app_assoc.
    + rewrite length_app, Hl. simpl. lia.
Qed.

End Events.

Lemma loop_events_calls (d : string) (rs : list (ERROR_CODE * Frame)) :
  Forall (fun e => e ≠ CamGetCameraInformation ∧ e ≠ CamClose) (loop_events d rs)
  ∧ ∃ status, head (loop_events d rs) = Some (CamGrab status).
Proof.
  unfold loop_events. split.
  - rewrite Forall_app. split; [apply frames_events_calls|]. by repeat constructor.
  - destruct (successes rs); simpl; eauto.
Qed.

End TraceFacts.

(** C9: in a run that opens the recording, the calibration is read from
    the handle by the four calls of [get_camera_information] that follow
    [open] at once: before the first [grab] of the loop and before
    [close].  The loop makes no such call, [close] is the last call on the
    handle, and the values written to [calib.txt] afterwards are those of
    the calibration read then. *)
Theorem calibration_read_before_loop_and_close
    (rec : Recording) (args : Args) (w : World) :
  open_status rec = SUCCESS →
  let d := resolve_output_dir (input_file args) (output_dir args) in
  let c := calibration_parameters rec in
  let loop := loop_events d (grabs rec) in
  let closing := closing_events d (N.of_nat (length (successes (grabs rec)))) c in
  trace (world_of (main rec args w))
  = trace w ++ setup_events d (input_file args)
      ++ CamOpen (input_file args) SUCCESS
         :: replicate 4 CamGetCameraInformation ++ loop ++ closing
  ∧ List.filter is_camera_call (setup_events d (input_file args)) = []
  ∧ (∃ status, head loop = Some (CamGrab status))
  ∧ Forall (fun e => e ≠ CamGetCameraInformation ∧ e ≠ CamClose) loop
  ∧ List.filter is_camera_call closing = [CamClose]
  ∧ files (world_of (main rec args w)) !! Path.join d "calib.txt"
    = Some (Text (calib_text c)).
Proof.
  intros H d c loop closing.
  split; [by apply RunFacts.success_trace|]. split; [done|].
  split; [apply TraceFacts.loop_events_calls|].
  split; [apply TraceFacts.loop_events_calls|].
  split; [done|]. by apply RunFacts.success_calib.
Qed.

Lemma calibration_read_before_loop_and_close_witness :
  open_status Examples.rec0 = SUCCESS
  ∧ List.filter is_camera_call
      (trace (world_of (main Examples.rec0 Examples.args0 Examples.empty_world)))
    = [CamOpen "/data/run1.svo" SUCCESS;
       CamGetCameraInformation; CamGetCameraInformation;
       CamGetCameraInformation; CamGetCameraInformation;
       CamGrab SUCCESS; CamRetrieveImage LEFT; CamRetrieveImage RIGHT;
       CamGetTimestamp IMAGE;
       CamGrab SUCCESS; CamRetrieveImage LEFT; CamRetrieveImage RIGHT;
       CamGetTimestamp IMAGE;
       CamGrab CORRUPTED_FRAME; CamClose].
Proof.
  split; [reflexivity|].
  rewrite (proj1 (calibration_read_before_loop_and_close Examples.rec0
                    Examples.args0 Examples.empty_world eq_refl)).
  vm_compute. reflexivity.
Defined.

Module TimesFacts.
Import Str StrFacts Fmt FmtFacts Path PathFacts LoopFacts MainFacts.

Lemma times_line_seconds (f : Frame) :
  times_line (timestamp_ns f IMAGE) = seconds_9f f +:+ nl.
Proof. done. Qed.

Lemma split_times_text (frames : list Frame) :
  split_on newline (times_text frames) = map seconds_9f frames ++ [""].
Proof.
  induction frames as [|f frames IH]; [done|].
  simpl. rewrite times_line_seconds. unfold nl.
  rewrite sapp_assoc, sapp_cons, sapp_nil_l.
  rewrite split_on_app by apply format_9f_no_newline. by rewrite IH.
Qed.

Lemma lines_times_text (frames : list Frame) :
  lines (times_text frames) = Some (map seconds_9f frames).
Proof.
  unfold lines. rewrite split_times_text, last_snoc.
  by rewrite List.removelast_last.
Qed.

Section Loop.

Variables A0 A1 tf : string.

(** The files the loop leaves depend on the results of [grab] only
    through the frames of the leading successes. *)
Lemma export_loop_files_successes rs rs' n w :
  successes rs = successes rs' →
  files (export_loop A0 A1 tf rs n w).2 = files (export_loop A0 A1 tf rs' n w).2.
Proof.
  revert rs' n w. induction rs as [|[st f] rs IH]; intros rs' n w H.
  - destruct rs' as [|[st' f'] rs']; [done|]. simpl in *.
    destruct (decide (st' = SUCCESS)) as [->|]; [done|done].
  - simpl. destruct (decide (st = SUCCESS)) as [->|Hst].
    + simpl in H. destruct rs' as [|[st' f'] rs']; [done|].
      simpl in *. destruct (decide (st' = SUCCESS)) as [->|Hst'].
      * injection H as -> H. by apply IH.
      * by destruct st'.
    + assert (E : successes ((st, f) :: rs) = []) by (by destruct st).
      rewrite E in H. destruct rs' as [|[st' f'] rs']; [done|].
      simpl in *. destruct (decide (st' = SUCCESS)) as [->|]; [done|done].
Qed.

End Loop.

(** What [successes] and [final_status] are on the results of a recording
    whose first failure comes after [frames]. *)
Lemma successes_app frames st f rest :
  st ≠ SUCCESS →
  successes (map (pair SUCCESS) frames ++ (st, f) :: rest) = frames
  ∧ final_status (map (pair SUCCESS) frames ++ (st, f) :: rest) = st.
Proof.
  intros H. induction frames as [|g frames [IH1 IH2]]; simpl.
  - by destruct st.
  - by rewrite IH1, IH2.
Qed.

Lemma successes_end frames :
  successes (map (pair SUCCESS) frames) = frames
  ∧ final_status (map (pair SUCCESS) frames) = END_OF_SVOFILE_REACHED.
Proof.
  induction frames as [|g frames [IH1 IH2]]; simpl; [done|]. by rewrite IH1, IH2.
Qed.

End TimesFacts.

(** C5: when the recording yields [K] successful grabs before the first
    failure, [times.txt] has exactly [K] lines, and for every [N < K] the
    files [image_0/{N:06d}.png] and [image_1/{N:06d}.png] hold the left and
    right images of the [N]th grab and line [N] of [times.txt] holds its
    timestamp; the names are distinct for distinct [N], no other file is
    written besides [times.txt] and [calib.txt], and the calls of the
    [N]th iteration (grab, both images retrieved, timestamp, both images
    written, timestamp written) come together, in this order, after those
    of the iterations before. *)
Theorem frames_numbered_in_order (rec : Recording) (args : Args) (w : World) :
  open_status rec = SUCCESS →
  let d := resolve_output_dir (input_file args) (output_dir args) in
  let image_0_dir := Path.join d "image_0" in
  let image_1_dir := Path.join d "image_1" in
  let times_file := Path.join d "times.txt" in
  let frames := successes (grabs rec) in
  let K := length frames in
  let final := world_of (main rec args w) in
  (∃ text lines,
     files final !! times_file = Some (Text text)
     ∧ Str.lines text = Some lines
     ∧ length lines = K
     ∧ ∀ N f, frames !! N = Some f → lines !! N = Some (seconds_9f f))
  ∧ (∀ N f, frames !! N = Some f →
       files final !! Path.join image_0_dir (Fmt.format_06d (N.of_nat N) +:+ ".png")
         = Some (Png (first3 (image f LEFT)))
       ∧ files final !! Path.join image_1_dir (Fmt.format_06d (N.of_nat N) +:+ ".png")
         = Some (Png (first3 (image f RIGHT))))
  ∧ (∀ p, p ≠ times_file → p ≠ Path.join d "calib.txt" →
       (∀ N, (N < K)%nat →
          p ≠ Path.join image_0_dir (Fmt.format_06d (N.of_nat N) +:+ ".png")
          ∧ p ≠ Path.join image_1_dir (Fmt.format_06d (N.of_nat N) +:+ ".png")) →
       files final !! p = files w !! p)
  ∧ (∀ N M, Fmt.format_06d N = Fmt.format_06d M → N = M)
  ∧ (∀ N, (N < 1000000)%N → String.length (Fmt.format_06d N) = 6%nat)
  ∧ Fmt.format_06d 0 = "000000" ∧ Fmt.format_06d 41 = "000041"
  ∧ (∃ before after,
       trace final
       = before ++ frames_events image_0_dir image_1_dir times_file 0 frames ++ after
       ∧ ∀ N f, frames !! N = Some f →
           ∃ earlier later,
             frames_events image_0_dir image_1_dir times_file 0 frames
             = earlier
               ++ [CamGrab SUCCESS;
                   CamRetrieveImage LEFT;
                   CamRetrieveImage RIGHT;
                   CamGetTimestamp IMAGE;
                   Imwrite (Path.join image_0_dir
                              (Fmt.format_06d (N.of_nat N) +:+ ".png"))
                     (first3 (image f LEFT));
                   Imwrite (Path.join image_1_dir
                              (Fmt.format_06d (N.of_nat N) +:+ ".png"))
                     (first3 (image f RIGHT));
                   FileWrite times_file (seconds_9f f +:+ Str.nl)]
               ++ later
             ∧ length earlier = (7 * N)%nat).
Proof.
  intros H d image_0_dir image_1_dir times_file frames K final.
  split.
  { exists (times_text frames), (map seconds_9f frames).
    split; [by apply RunFacts.success_times|].
    split; [apply TimesFacts.lines_times_text|].
    split; [apply length_map|].
    intros N f Hf. by rewrite list_lookup_fmap, Hf. }
  split; [intros N f Hf; by apply RunFacts.success_images|].
  split; [intros p H1 H2 H3; by apply RunFacts.success_other|].
  split; [apply FmtFacts.format_06d_inj|].
  split; [apply DigitsFacts.format_06d_length|].
  split; [done|]. split; [done|].
  exists (trace w ++ setup_events d (input_file args)
            ++ CamOpen (input_file args) SUCCESS
               :: replicate 4 CamGetCameraInformation),
    (CamGrab (final_status (grabs rec))
       :: closing_events d (N.of_nat K) (calibration_parameters rec)).
  split.
  { unfold final. rewrite RunFacts.success_trace by done.
    unfold loop_events. fold d image_0_dir image_1_dir times_file frames K.
    rewrite <- !List.app_assoc. simpl. by rewrite <- ?List.app_assoc. }
  intros N f Hf.
  destruct (TraceFacts.frames_events_lookup image_0_dir image_1_dir times_file
              0 frames N f Hf) as (earlier & later & E & Hl).
  exists earlier, later. split; [|done]. rewrite E, N.add_0_l. done.
Qed.

Lemma frames_numbered_in_order_witness :
  open_status Examples.rec0 = SUCCESS
  ∧ let final := world_of (main Examples.rec0 Examples.args0 Examples.empty_world) in
    files final !! "/data/run1_kitti_dataset/image_0/000001.png"
      = Some (Png [[[Byte.x01; Byte.x02; Byte.x03]]])
    ∧ files final !! "/data/run1_kitti_dataset/image_1/000001.png"
      = Some (Png [[[Byte.x04; Byte.x05; Byte.x06]]])
    ∧ ∃ text lines,
        files final !! "/data/run1_kitti_dataset/times.txt" = Some (Text text)
        ∧ Str.lines text = Some lines
        ∧ length lines = 2%nat
        ∧ lines !! 1%nat = Some "1.033333333".
Proof.
  split; [reflexivity|].
  destruct (frames_numbered_in_order Examples.rec0 Examples.args0
              Examples.empty_world eq_refl)
    as ((text & lines & H1 & H2 & H3 & H4) & Himg & _).
  destruct (Himg 1%nat (Examples.frame0 1033333333) eq_refl) as [H5 H6].
  split; [exact H5|]. split; [exact H6|].
  exists text, lines. split; [exact H1|]. split; [exact H2|].
  split; [exact H3|]. rewrite (H4 1%nat (Examples.frame0 1033333333) eq_refl).
  vm_compute. reflexivity.
Defined.

Lemma printed_frames_events (A0 A1 tf : string) (n : N) (frames : list Frame) :
  printed (frames_events A0 A1 tf n frames) = [].
Proof.
  revert n. induction frames as [|f frames IH]; intros n; [done|].
  unfold printed in *. simpl. apply IH.
Qed.

(** C7: the loop ends at the first result of [grab] that is not
    [SUCCESS], whatever that result is and whatever the recording would
    have yielded afterwards: two recordings with the same frames before
    their first failure leave the same files and directories, print the
    same three messages, none of them about an error, and both end with
    exit code 0; their calls differ in the status the last [grab] returned
    only.  The frames exported before the failure are kept, and the frame
    count reported is the number of successful grabs. *)
Theorem loop_stops_at_first_failure
    (rec1 rec2 : Recording) (args : Args) (w : World) :
  open_status rec1 = SUCCESS → open_status rec2 = SUCCESS →
  calibration_parameters rec1 = calibration_parameters rec2 →
  successes (grabs rec1) = successes (grabs rec2) →
  let d := resolve_output_dir (input_file args) (output_dir args) in
  let frames := successes (grabs rec1) in
  let o1 := main rec1 args w in
  let o2 := main rec2 args w in
  files (world_of o1) = files (world_of o2)
  ∧ dirs (world_of o1) = dirs (world_of o2)
  ∧ exit_code o1 = 0 ∧ exit_code o2 = 0
  ∧ (∃ before after,
       trace (world_of o1)
         = trace w ++ before ++ CamGrab (final_status (grabs rec1)) :: after
       ∧ trace (world_of o2)
         = trace w ++ before ++ CamGrab (final_status (grabs rec2)) :: after
       ∧ printed (before ++ after)
         = [OpeningInputFile (input_file args);
            ExportedFrames (N.of_nat (length frames)) d;
            SavedCalibration (Path.join d "calib.txt")])
  ∧ (∀ N f, frames !! N = Some f →
       files (world_of o1)
         !! Path.join (Path.join d "image_0") (image_name (N.of_nat N))
         = Some (Png (first3 (image f LEFT)))
       ∧ files (world_of o1)
           !! Path.join (Path.join d "image_1") (image_name (N.of_nat N))
         = Some (Png (first3 (image f RIGHT))))
  ∧ (∀ fs status f rest,
       status ≠ SUCCESS →
       successes (map (pair SUCCESS) fs ++ (status, f) :: rest) = fs
       ∧ final_status (map (pair SUCCESS) fs ++ (status, f) :: rest) = status)
  ∧ (∀ fs,
       successes (map (pair SUCCESS) fs) = fs
       ∧ final_status (map (pair SUCCESS) fs) = END_OF_SVOFILE_REACHED).
Proof.
  intros H1 H2 Hc Hs d frames o1 o2.
  unfold o1, o2, main.
  split.
  { rewrite !MainFacts.success_outcome by done. cbn [world_of files].
    rewrite Hc. f_equal. unfold after_loop.
    by apply TimesFacts.export_loop_files_successes. }
  split; [by rewrite !MainFacts.success_outcome by done|].
  split; [by rewrite MainFacts.success_outcome by done|].
  split; [by rewrite MainFacts.success_outcome by done|].
  split.
  { exists (setup_events d (input_file args)
              ++ CamOpen (input_file args) SUCCESS
                 :: replicate 4 CamGetCameraInformation
              ++ frames_events (Path.join d "image_0") (Path.join d "image_1")
                   (Path.join d "times.txt") 0 frames),
      (closing_events d (N.of_nat (length frames)) (calibration_parameters rec1)).
    rewrite !MainFacts.success_outcome by done. cbn [world_of trace].
    unfold loop_events. fold d. rewrite <- Hs, <- Hc. fold frames.
    split; [|split].
    - rewrite <- !List.app_assoc. simpl. by rewrite <- ?List.app_assoc.
    - rewrite <- !List.app_assoc. simpl. by rewrite <- ?List.app_assoc.
    - unfold printed. rewrite !omap_app. simpl.
      fold (printed (frames_events (Path.join d "image_0") (Path.join d "image_1")
                       (Path.join d "times.txt") 0 frames)).
      by rewrite printed_frames_events. }
  split; [intros N f Hf; by apply RunFacts.success_images|].
  split; [intros; by apply TimesFacts.successes_app|].
  apply TimesFacts.successes_end.
Qed.

Lemma loop_stops_at_first_failure_witness :
  let rec2 := {| open_status := SUCCESS;
                 calibration_parameters := Examples.calib0;
                 grabs := [(SUCCESS, Examples.frame0 1000000000);
                           (SUCCESS, Examples.frame0 1033333333)] |} in
  open_status Examples.rec0 = SUCCESS ∧ open_status rec2 = SUCCESS
  ∧ calibration_parameters Examples.rec0 = calibration_parameters rec2
  ∧ successes (grabs Examples.rec0) = successes (grabs rec2)
  ∧ final_status (grabs Examples.rec0) = CORRUPTED_FRAME
  ∧ final_status (grabs rec2) = END_OF_SVOFILE_REACHED
  ∧ files (world_of (main Examples.rec0 Examples.args0 Examples.empty_world))
    = files (world_of (main rec2 Examples.args0 Examples.empty_world))
  ∧ exit_code (main Examples.rec0 Examples.args0 Examples.empty_world) = 0.
Proof.
  intros rec2.
  split; [reflexivity|]. split; [reflexivity|]. split; [reflexivity|].
  split; [reflexivity|]. split; [reflexivity|]. split; [reflexivity|].
  destruct (loop_stops_at_first_failure Examples.rec0 rec2 Examples.args0
              Examples.empty_world eq_refl eq_refl eq_refl eq_refl)
    as (Hf & _ & He & _).
  split; [exact Hf|exact He].
Defined.

(** ** Rounding to binary64 stays finite below the overflow threshold *)

Module RoundFacts.

Lemma digits2_pos_size (p : positive) : digits2_pos p = Pos.size p.
Proof. induction p; simpl; congruence. Qed.

Lemma Zdigits2_log2 (m : Z) : 0 < m → Zdigits2 m = Z.log2 m + 1.
Proof.
  destruct m as [|p|p]; try lia. intros _.
  destruct p; simpl; rewrite ?digits2_pos_size; lia.
Qed.

Lemma Zdigits2_nonneg (m : Z) : 0 <= Zdigits2 m.
Proof. destruct m; simpl; lia. Qed.

Lemma Zdigits2_le (a b : Z) : 0 <= a <= b → Zdigits2 a <= Zdigits2 b.
Proof.
  intros [Ha Hb]. destruct (decide (a = 0)) as [->|]; [apply Zdigits2_nonneg|].
  rewrite !Zdigits2_log2 by lia. apply Z.add_le_mono_r, Z.log2_le_mono. lia.
Qed.

Lemma Zdigits2_succ (m : Z) : 0 <= m → Zdigits2 (m + 1) <= Zdigits2 m + 1.
Proof.
  intros H. destruct (decide (m = 0)) as [->|]; [simpl; lia|].
  rewrite !Zdigits2_log2 by lia.
  pose proof (Z.log2_succ_le m). unfold Z.succ in *. lia.
Qed.

Lemma Zdigits2_div_pow2 (m n : Z) :
  0 <= m → 0 <= n → Zdigits2 (m / 2 ^ n) + n <= Z.max (Zdigits2 m) n.
Proof.
  intros Hm Hn.
  assert (0 <= m / 2 ^ n) by (apply Z.div_pos; lia).
  destruct (decide (m / 2 ^ n = 0)) as [->|Hq]; [simpl; lia|].
  assert (0 < m).
  { destruct (decide (m = 0)) as [->|]; [|lia]. by rewrite Z.div_0_l in Hq by lia. }
  rewrite !Zdigits2_log2 by lia.
  assert (E : Z.log2 (m / 2 ^ n) = Z.max 0 (Z.log2 m - n)).
  { rewrite <- Z.shiftr_div_pow2 by lia. apply Z.log2_shiftr. lia. }
  rewrite E.
  assert (n <= Z.log2 m); [|lia].
  destruct (decide (n <= Z.log2 m)); [done|]. exfalso. apply Hq.
  apply Z.div_small. split; [lia|]. apply Z.log2_lt_pow2; lia.
Qed.

Lemma Zdigits2_mul (a b : positive) :
  Zdigits2 (Z.pos (a * b)) <= Zdigits2 (Z.pos a) + Zdigits2 (Z.pos b).
Proof.
  rewrite Pos2Z.inj_mul, !Zdigits2_log2 by lia.
  pose proof (Z.log2_mul_above (Z.pos a) (Z.pos b)). lia.
Qed.

Lemma shr_m_shr_1 (r : shr_record) : 0 <= shr_m r → shr_m (shr_1 r) = shr_m r / 2.
Proof.
  destruct r as [m r s]. simpl. intros H. rewrite <- Z.div2_div.
  destruct m as [|[p|p|]|]; try done; lia.
Qed.

Lemma shr_m_iter (p : positive) (r : shr_record) :
  0 <= shr_m r → shr_m (SpecFloat.iter_pos shr_1 p r) = shr_m r / 2 ^ Z.pos p.
Proof.
  revert r. induction p as [p IH|p IH|]; intros r H; simpl SpecFloat.iter_pos.
  - assert (H1 : 0 <= shr_m (shr_1 r)).
    { rewrite shr_m_shr_1 by done. apply Z.div_pos; lia. }
    assert (H2 : 0 <= shr_m (SpecFloat.iter_pos shr_1 p (shr_1 r))).
    { rewrite IH by done. apply Z.div_pos; lia. }
    rewrite IH, IH, shr_m_shr_1 by done.
    rewrite !Z.div_div by lia. f_equal.
    rewrite Pos2Z.inj_xI.
    replace (2 * Z.pos p + 1) with (1 + Z.pos p + Z.pos p) by lia.
    rewrite !Z.pow_add_r by lia. rewrite Z.pow_1_r. ring.
  - assert (H2 : 0 <= shr_m (SpecFloat.iter_pos shr_1 p r)).
    { rewrite IH by done. apply Z.div_pos; lia. }
    rewrite IH, IH by done.
    rewrite !Z.div_div by lia. f_equal.
    replace (Z.pos p~0) with (Z.pos p + Z.pos p) by lia.
    by rewrite Z.pow_add_r by lia.
  - rewrite shr_m_shr_1 by done. done.
Qed.

Lemma shr_spec (r : shr_record) (e n : Z) :
  0 <= shr_m r →
  0 <= shr_m (shr r e n).1
  ∧ (shr r e n).2 = Z.max e (e + n)
  ∧ Zdigits2 (shr_m (shr r e n).1) + (shr r e n).2
    <= Z.max (Zdigits2 (shr_m r) + e) (shr r e n).2.
Proof.
  intros H. destruct n as [|p|p]; simpl; try lia.
  rewrite shr_m_iter by done.
  split; [apply Z.div_pos; lia|]. split; [lia|].
  pose proof (Zdigits2_div_pow2 (shr_m r) (Z.pos p) H ltac:(lia)). lia.
Qed.

Lemma shr_m_of_loc (m : Z) (l : location) : shr_m (shr_record_of_loc m l) = m.
Proof. by destruct l as [|[]]. Qed.

Lemma round_nearest_even_bounds (m : Z) (l : location) :
  0 <= m →
  0 <= round_nearest_even m l
  ∧ Zdigits2 (round_nearest_even m l) <= Zdigits2 m + 1.
Proof.
  intros H. pose proof (Zdigits2_succ m H).
  destruct l as [|[]]; simpl; try lia.
  destruct (Z.even m); lia.
Qed.

(** Rounding a number below [2^(emax - 1)] to binary64 does not
    overflow. *)
Lemma binary_round_aux_finite (s : bool) (m e : Z) (l : location) :
  0 <= m → e <= 971 → Zdigits2 m + e <= 1023 →
  Float64.finite_below (Z.max (Zdigits2 m + e) 971 + 1)
    (binary_round_aux Float64.prec Float64.emax s m e l).
Proof.
  intros Hm He Hd. unfold binary_round_aux, shr_fexp.
  set (n1 := fexp Float64.prec Float64.emax (Zdigits2 m + e) - e).
  pose proof (shr_spec (shr_record_of_loc m l) e n1) as H1.
  rewrite shr_m_of_loc in H1. specialize (H1 Hm).
  destruct (shr (shr_record_of_loc m l) e n1) as [r1 e1].
  simpl in H1. destruct H1 as (H1m & H1e & H1d).
  pose proof (round_nearest_even_bounds (shr_m r1) (loc_of_shr_record r1) H1m)
    as [H2m H2d].
  set (m2 := round_nearest_even (shr_m r1) (loc_of_shr_record r1)) in *.
  set (n2 := fexp Float64.prec Float64.emax (Zdigits2 m2 + e1) - e1).
  pose proof (shr_spec (shr_record_of_loc m2 loc_Exact) e1 n2) as H3.
  rewrite shr_m_of_loc in H3. specialize (H3 H2m).
  destruct (shr (shr_record_of_loc m2 loc_Exact) e1 n2) as [r3 e3].
  simpl in H3. destruct H3 as (H3m & H3e & H3d).
  unfold n1, n2, fexp, emin, Float64.prec, Float64.emax in *.
  destruct (shr_m r3) as [|p|p] eqn:E; simpl; [done| |lia].
  destruct (Z.leb_spec e3 (1024 - 53)); simpl; [|lia].
  change (Z.pos (digits2_pos p)) with (Zdigits2 (Z.pos p)). lia.
Qed.

Lemma finite_below_is_finite (b : Z) (x : spec_float) :
  Float64.finite_below b x → Float64.is_finite x = true.
Proof. by destruct x. Qed.

Lemma Zdigits2_iter_xO (m d : positive) :
  Zdigits2 (Z.pos (Pos.iter xO m d)) = Zdigits2 (Z.pos m) + Z.pos d.
Proof.
  induction d as [|d IH] using Pos.peano_ind.
  - simpl. lia.
  - rewrite Pos.iter_succ. simpl in *. lia.
Qed.

Lemma shl_align_spec (mx : positive) (ex ex' : Z) :
  (shl_align mx ex ex').2 <= ex
  ∧ Zdigits2 (Z.pos (shl_align mx ex ex').1) + (shl_align mx ex ex').2
    = Zdigits2 (Z.pos mx) + ex.
Proof.
  unfold shl_align. destruct (ex' - ex) as [|d|d] eqn:E; simpl fst; simpl snd;
    try lia.
  rewrite Zdigits2_iter_xO. lia.
Qed.

Lemma of_int_finite (n : Z) :
  0 <= n < 2 ^ 64 → Float64.finite_below 972 (Float64.of_int n).
Proof.
  intros [H0 H1]. unfold Float64.of_int, binary_normalize.
  destruct n as [|p|p]; [done| |lia].
  unfold binary_round.
  pose proof (shl_align_spec p 0
                (fexp Float64.prec Float64.emax (Z.pos (digits2_pos p) + 0)))
    as [He Hd].
  destruct (shl_align p 0 _) as [mz ez]. simpl in He, Hd.
  assert (Hp : Zdigits2 (Z.pos p) <= 64).
  { rewrite Zdigits2_log2 by lia.
    assert (Z.log2 (Z.pos p) < 64) by (apply Z.log2_lt_pow2; lia). lia. }
  simpl in Hp.
  pose proof (binary_round_aux_finite false (Z.pos mz) ez loc_Exact
                ltac:(lia) ltac:(lia) ltac:(simpl; lia)) as H.
  simpl Zdigits2 in H.
  replace (Z.max (Z.pos (digits2_pos mz) + ez) 971 + 1) with 972 in H by lia.
  done.
Qed.

Lemma mul_finite (bx b_y : Z) (x y : spec_float) :
  Float64.finite_below bx x → Float64.finite_below b_y y → bx + b_y <= 972 →
  Float64.is_finite (Float64.mul x y) = true.
Proof.
  intros Hx Hy Hb.
  destruct x as [sx|sx| |sx mx ex], y as [sy|sy| |sy my ey]; try done.
  simpl in Hx, Hy. unfold Float64.mul. simpl SFmul.
  pose proof (Zdigits2_mul mx my) as Hm. simpl in Hm.
  assert (1 <= Z.pos (digits2_pos mx)) by lia.
  assert (1 <= Z.pos (digits2_pos my)) by lia.
  eapply finite_below_is_finite, binary_round_aux_finite; simpl; lia.
Qed.

(** The seconds of a 64-bit count of nanoseconds are a finite number. *)
Lemma seconds_finite (ts : Z) :
  0 <= ts < 2 ^ 64 →
  Float64.is_finite (Float64.mul (Float64.of_int ts) (Float64.of_decimal 1 9))
  = true.
Proof.
  intros H. apply (mul_finite 972 (-29)); [by apply of_int_finite| |done].
  by vm_compute.
Qed.

End RoundFacts.

Lemma loop_events_timestamps (d : string) (rs : list (ERROR_CODE * Frame)) :
  Forall (fun e => ∀ reference, e = CamGetTimestamp reference → reference = IMAGE)
    (loop_events d rs).
Proof.
  unfold loop_events. rewrite Forall_app. split; [|by repeat constructor].
  generalize 0%N. induction (successes rs) as [|f frames IH]; intros n;
    [constructor|].
  simpl. repeat (constructor; [by intros ? [= <-]|]). apply IH.
Qed.

(** C6: the timestamp of every exported frame is read with the time
    reference of the image, multiplied by [1e-9] in binary64, and written
    to [times.txt] with [.9f] and a newline: the lines of [times.txt] are
    these values, in the order of the frames, and for every timestamp of
    64 bits the value is finite and written with exactly nine digits after
    the decimal point. *)
Theorem timestamp_lines_in_seconds (rec : Recording) (args : Args) (w : World) :
  open_status rec = SUCCESS →
  let d := resolve_output_dir (input_file args) (output_dir args) in
  let times_file := Path.join d "times.txt" in
  let frames := successes (grabs rec) in
  let final := world_of (main rec args w) in
  let seconds := fun ts : Z =>
    Float64.mul (Float64.of_int ts) (Float64.of_decimal 1 9) in
  (∃ text,
     files final !! times_file = Some (Text text)
     ∧ Str.lines text
       = Some (map (fun f => Fmt.format_9f (seconds (timestamp_ns f IMAGE))) frames))
  ∧ (∀ N f, frames !! N = Some f →
       ∃ earlier later,
         trace final
         = earlier
           ++ [CamGetTimestamp IMAGE;
               Imwrite (Path.join (Path.join d "image_0") (image_name (N.of_nat N)))
                 (first3 (image f LEFT));
               Imwrite (Path.join (Path.join d "image_1") (image_name (N.of_nat N)))
                 (first3 (image f RIGHT));
               FileWrite times_file
                 (Fmt.format_9f (seconds (timestamp_ns f IMAGE)) +:+ Str.nl)]
           ++ later)
  ∧ Forall (fun e => ∀ reference, e = CamGetTimestamp reference → reference = IMAGE)
      (loop_events d (grabs rec))
  ∧ (∀ ts, 0 <= ts < 2 ^ 64 →
       Float64.is_finite (seconds ts) = true
       ∧ Str.decimals (Fmt.format_9f (seconds ts)) = Some 9%nat)
  ∧ Float64.of_decimal 1 9 = S754_finite false 4835703278458517 (-82)
  ∧ 2 * Z.abs (4835703278458517 * 10 ^ 9 - 2 ^ 82) <= 10 ^ 9.
Proof.
  intros H d times_file frames final seconds.
  split.
  { exists (times_text frames). split; [by apply RunFacts.success_times|].
    apply TimesFacts.lines_times_text. }
  split.
  { intros N f Hf.
    destruct (TraceFacts.frames_events_lookup (Path.join d "image_0")
                (Path.join d "image_1") times_file 0 frames N f Hf)
      as (earlier & later & E & _).
    unfold final. rewrite RunFacts.success_trace by done.
    unfold loop_events. fold d times_file frames. rewrite E, N.add_0_l.
    eexists (trace w ++ setup_events d (input_file args)
               ++ CamOpen (input_file args) SUCCESS
                  :: replicate 4 CamGetCameraInformation
               ++ earlier
               ++ [CamGrab SUCCESS; CamRetrieveImage LEFT; CamRetrieveImage RIGHT]),
      _.
    unfold frame_events.
    rewrite <- !List.app_assoc. simpl. rewrite <- ?List.app_assoc. simpl.
    reflexivity. }
  split; [apply loop_events_timestamps|].
  split.
  { intros ts Hts. pose proof (RoundFacts.seconds_finite ts Hts) as Hfin.
    split; [done|]. by apply FmtFacts.format_f_finite. }
  split; by vm_compute.
Qed.

Lemma timestamp_lines_in_seconds_witness :
  open_status Examples.rec0 = SUCCESS
  ∧ ∃ text,
      files (world_of (main Examples.rec0 Examples.args0 Examples.empty_world))
        !! "/data/run1_kitti_dataset/times.txt" = Some (Text text)
      ∧ Str.lines text = Some ["1.000000000"; "1.033333333"].
Proof.
  split; [reflexivity|].
  destruct (timestamp_lines_in_seconds Examples.rec0 Examples.args0
              Examples.empty_world eq_refl) as ((text & H1 & H2) & _).
  exists text. split; [exact H1|]. rewrite H2. vm_compute. reflexivity.
Defined.

(** ** Further properties of the program *)

Module ImageFacts.

Lemma first3_channels (a : ndarray) : channels_at_most 3 (first3 a).
Proof.
  unfold channels_at_most, first3.
  apply Forall_fmap, Forall_true. intros row.
  apply Forall_fmap, Forall_true. intros px. simpl.
  rewrite length_take. lia.
Qed.

Lemma lookup_map {A B : Type} (f : A → B) (l : list A) (i : nat) :
  map f l !! i = f <$> l !! i.
Proof. apply (list_lookup_fmap f l i). Qed.

Lemma first3_pixel (a : list (list (list Byte.byte))) (i j : nat) :
  first3 a !! i ≫= (.!! j) = take 3 <$> (a !! i ≫= (.!! j)).
Proof.
  unfold first3, ndarray. rewrite lookup_map.
  destruct (a !! i) as [row|]; [|done]. apply lookup_map.
Qed.

Lemma first3_shape (a : ndarray) :
  length (first3 a) = length a ∧ map length (first3 a) = map length a.
Proof.
  unfold first3. split; [apply length_map|].
  rewrite map_map. apply map_ext. intros row. apply length_map.
Qed.

Lemma first3_idem (a : ndarray) : first3 (first3 a) = first3 a.
Proof.
  unfold first3. rewrite map_map. apply map_ext. intros row.
  rewrite map_map. apply map_ext. intros px. apply take_take.
Qed.

Lemma first3_same_colours (a b : ndarray) :
  same_colours a b → first3 a = first3 b.
Proof.
  unfold same_colours, first3. intros H.
  induction H as [|r r' a b Hr _ IH]; [done|]. simpl. f_equal; [|done].
  induction Hr as [|p q r r' Hp _ IHr]; [done|]. simpl. by f_equal.
Qed.

Lemma frames_events_images (A0 A1 tf : string) (n : N) (frames : list Frame) :
  Forall (fun e => ∀ p px, e = Imwrite p px →
                   channels_at_most 3 px
                   ∧ ∃ f v, f ∈ frames ∧ px = first3 (image f v)
                            ∧ (v = LEFT ∨ v = RIGHT))
    (frames_events A0 A1 tf n frames).
Proof.
  revert n. induction frames as [|f frames IH]; intros n; [constructor|].
  simpl. repeat (constructor; [intros p px [= <- <-] || (intros p px; discriminate)|]).
  - split; [apply first3_channels|]. exists f, LEFT. split; [left|]. auto.
  - split; [apply first3_channels|]. exists f, RIGHT. split; [left|]. auto.
  - eapply Forall_impl; [apply IH|]. simpl. intros e H p px E.
    destruct (H p px E) as (H1 & g & v & Hg & H2 & H3).
    split; [done|]. exists g, v. split; [by right|]. done.
Qed.

End ImageFacts.

(** X1: the program never hands a fourth channel to the image codec.
    Every image written in a run is the buffer retrieved for the left or
    the right rectified view of an exported frame cut down to its first
    three channels: it has the rows and columns of the buffer, at most
    three channels in every pixel, every pixel is the first three
    channels of the pixel retrieved, and two buffers with the same first
    three channels give the same file. *)
Theorem images_written_without_alpha (rec : Recording) (args : Args) (w : World) :
  ∃ events,
    trace (world_of (main rec args w)) = trace w ++ events
    ∧ Forall (fun e => ∀ p px, e = Imwrite p px →
                channels_at_most 3 px
                ∧ ∃ f v, f ∈ successes (grabs rec) ∧ (v = LEFT ∨ v = RIGHT)
                         ∧ px = first3 (image f v)
                         ∧ length px = length (image f v)
                         ∧ map length px = map length (image f v)
                         ∧ ∀ i j, px !! i ≫= (.!! j)
                                  = take 3 <$> (image f v !! i ≫= (.!! j)))
        events
    ∧ ∀ a b : ndarray, same_colours a b → first3 a = first3 b.
Proof.
  assert (Hloop : ∀ d,
    Forall (fun e => ∀ p px, e = Imwrite p px →
                channels_at_most 3 px
                ∧ ∃ f v, f ∈ successes (grabs rec) ∧ (v = LEFT ∨ v = RIGHT)
                         ∧ px = first3 (image f v)
                         ∧ length px = length (image f v)
                         ∧ map length px = map length (image f v)
                         ∧ ∀ i j, px !! i ≫= (.!! j)
                                  = take 3 <$> (image f v !! i ≫= (.!! j)))
      (loop_events d (grabs rec))).
  { intros d. unfold loop_events. rewrite Forall_app.
    split; [|by repeat constructor].
    eapply Forall_impl; [apply ImageFacts.frames_events_images|].
    simpl. intros e H p px E.
    destruct (H p px E) as (H1 & f & v & Hf & -> & Hv).
    split; [done|]. exists f, v. split; [done|]. split; [done|]. split; [done|].
    split; [apply ImageFacts.first3_shape|].
    split; [apply ImageFacts.first3_shape|]. apply ImageFacts.first3_pixel. }
  unfold main.
  destruct (decide (open_status rec = SUCCESS)) as [H|H].
  - rewrite MainFacts.success_outcome by done. cbn [world_of trace].
    eexists. split; [done|]. split; [|apply ImageFacts.first3_same_colours].
    rewrite Forall_app. split; [by repeat constructor|].
    rewrite Forall_cons. split; [done|].
    rewrite !Forall_app. split; [by repeat constructor|].
    split; [apply Hloop|]. by repeat constructor.
  - rewrite MainFacts.failure_outcome by done. cbn [world_of trace].
    eexists. split; [done|]. split; [|apply ImageFacts.first3_same_colours].
    rewrite Forall_app. split; by repeat constructor.
Qed.

Module CountFacts.

Lemma count_app (f : Event → bool) (l1 l2 : list Event) :
  count f (l1 ++ l2) = (count f l1 + count f l2)%nat.
Proof. unfold count. by rewrite List.filter_app, length_app. Qed.

Lemma count_frames_events (A0 A1 tf : string) (n : N) (frames : list Frame) :
  count is_grab (frames_events A0 A1 tf n frames) = length frames
  ∧ count is_retrieve_image (frames_events A0 A1 tf n frames)
    = (2 * length frames)%nat
  ∧ count is_get_timestamp (frames_events A0 A1 tf n frames) = length frames
  ∧ count is_imwrite (frames_events A0 A1 tf n frames) = (2 * length frames)%nat
  ∧ count is_cam_close (frames_events A0 A1 tf n frames) = 0%nat
  ∧ count is_file_close (frames_events A0 A1 tf n frames) = 0%nat.
Proof.
  revert n. induction frames as [|f frames IH]; intros n; [done|].
  destruct (IH (n + 1)%N) as (H1 & H2 & H3 & H4 & H5 & H6).
  change (frames_events A0 A1 tf n (f :: frames))
    with (frame_events A0 A1 tf n f ++ frames_events A0 A1 tf (n + 1) frames).
  rewrite !count_app, H1, H2, H3, H4, H5, H6. simpl.
  unfold count. simpl. repeat split; lia.
Qed.

End CountFacts.


(** X9: the calls on the handle and on the files can be counted.  A run
    that opens the recording and exports [K] frames calls [grab] [K + 1]
    times, [retrieve_image] [2 K] times, [get_timestamp] [K] times and
    the image codec [2 K] times, closes the handle once and closes both
    text files; a run that cannot open the recording calls none of these:
    it exits without closing the handle and without closing [times.txt]. *)
Theorem calls_counted (rec : Recording) (args : Args) (w : World) :
  let K := length (successes (grabs rec)) in
  ∃ events,
    trace (world_of (main rec args w)) = trace w ++ events
    ∧ (open_status rec = SUCCESS →
         count is_grab events = S K
         ∧ count is_retrieve_image events = (2 * K)%nat
         ∧ count is_get_timestamp events = K
         ∧ count is_imwrite events = (2 * K)%nat
         ∧ count is_cam_close events = 1%nat
         ∧ count is_file_close events = 2%nat)
    ∧ (open_status rec ≠ SUCCESS →
         count is_grab events = 0%nat
         ∧ count is_retrieve_image events = 0%nat
         ∧ count is_get_timestamp events = 0%nat
         ∧ count is_imwrite events = 0%nat
         ∧ count is_cam_close events = 0%nat
         ∧ count is_file_close events = 0%nat).
Proof.
  intros K. unfold main.
  destruct (decide (open_status rec = SUCCESS)) as [H|H].
  - rewrite MainFacts.success_outcome by done. cbn [world_of trace].
    eexists. split; [done|]. split; [|done]. intros _.
    set (d := resolve_output_dir (input_file args) (output_dir args)).
    destruct (CountFacts.count_frames_events (Path.join d "image_0")
                (Path.join d "image_1") (Path.join d "times.txt") 0
                (successes (grabs rec))) as (H1 & H2 & H3 & H4 & H5 & H6).
    fold K in H1, H2, H3, H4.
    unfold loop_events.
    change (CamOpen ?a ?b :: ?l) with ([CamOpen a b] ++ l).
    rewrite !CountFacts.count_app, H1, H2, H3, H4, H5, H6.
    unfold count. simpl. repeat split; lia.
  - rewrite MainFacts.failure_outcome by done. cbn [world_of trace].
    eexists. split; [done|]. split; [done|]. intros _. done.
Qed.

Module DirsFacts.
Import Path PathFacts.




End DirsFacts.


Module SplitextFacts.
Import Str StrFacts Path PathFacts DirFacts.

Lemma rfind_from_absent (c : ascii) (s : string) (i last : Z) :
  occurs c s = false → rfind_from c s i last = last.
Proof.
  revert i last. induction s as [|x s IH]; intros i last H; [done|].
  rewrite occurs_cons in H. apply orb_false_elim in H as [Hx Hs].
  simpl. rewrite Hx. by apply IH.
Qed.

Lemma rfind_from_app (c : ascii) (a b : string) (i last : Z) :
  occurs c b = false →
  rfind_from c (a +:+ String c b) i last = i + Z.of_nat (String.length a).
Proof.
  intros Hb. revert i last. induction a as [|x a IH]; intros i last.
  - rewrite sapp_nil_l. simpl. rewrite Ascii.eqb_refl.
    rewrite rfind_from_absent by done. lia.
  - rewrite sapp_cons. simpl rfind_from. rewrite IH. simpl String.length. lia.
Qed.

(** [rfind] finds the last occurrence. *)
Lemma rfind_last (c : ascii) (a b : string) :
  occurs c b = false → rfind c (a +:+ String c b) = Z.of_nat (String.length a).
Proof. intros H. unfold rfind. by rewrite rfind_from_app. Qed.

Lemma rfind_absent (c : ascii) (s : string) : occurs c s = false → rfind c s = -1.
Proof. apply rfind_from_absent. Qed.

Lemma rfind_from_cases (c : ascii) (s : string) (i last : Z) :
  (rfind_from c s i last = last ∧ occurs c s = false)
  ∨ ∃ a b, s = a +:+ String c b ∧ occurs c b = false
           ∧ rfind_from c s i last = i + Z.of_nat (String.length a).
Proof.
  destruct (occurs c s) eqn:E.
  - right. assert (H : ∃ a b, s = a +:+ String c b ∧ occurs c b = false).
    { clear i last. induction s as [|x s IH]; [done|].
      rewrite occurs_cons in E.
      destruct (occurs c s) eqn:Es.
      - destruct (IH eq_refl) as (a & b & -> & Hb). by exists (String x a), b.
      - rewrite orb_false_r in E. apply Ascii.eqb_eq in E as ->.
        by exists "", s. }
    destruct H as (a & b & -> & Hb). exists a, b.
    split; [done|]. split; [done|]. by apply rfind_from_app.
  - left. split; [|done]. by apply rfind_from_absent.
Qed.

Lemma substring_0_app (a s : string) :
  String.substring 0 (String.length a) (a +:+ s) = a.
Proof.
  induction a as [|x a IH]; [by destruct s|].
  rewrite sapp_cons. simpl. by rewrite IH.
Qed.

Lemma substring_skip (a s : string) (m : nat) :
  String.substring (String.length a) m (a +:+ s) = String.substring 0 m s.
Proof. induction a as [|x a IH]; [done|]. rewrite sapp_cons. simpl. apply IH. Qed.

(** The extension [splitext] returns is empty or begins with a dot. *)
Lemma splitext_ext (p : string) :
  (splitext p).2 = "" ∨ ∃ e, (splitext p).2 = String "." e.
Proof.
  unfold splitext. destruct (_ && _) eqn:E; [|by left]. right.
  apply andb_prop in E as [E _]. apply Z.ltb_lt in E.
  pose proof (rfind_from_bounds "/" p 0 (-1) ltac:(lia)) as H1.
  fold (rfind "/" p) in H1.
  destruct (rfind_from_cases "." p 0 (-1)) as [[H _]|(a & b & Hp & Hb & H)];
    fold (rfind "." p) in H; [lia|].
  subst p. cbn [snd].
  unfold slice. rewrite H. rewrite Z.add_0_l, Nat2Z.id.
  rewrite substring_skip. exists b.
  rewrite length_sapp. simpl String.length.
  replace (Z.to_nat (Z.of_nat (String.length a + S (String.length b))
                     - Z.of_nat (String.length a)))
    with (String.length (String "." b)) by (simpl; lia).
  apply substring_all.
Qed.

(** A path with an extension: the last component is [stem ++ "." ++ e]
    where [e] holds no dot and [stem] is not made of dots only. *)
Lemma splitext_with_ext (dir stem e : string) :
  dir = "" ∨ endswith_sep dir = true →
  occurs "/" stem = false → occurs "/" e = false → occurs "." e = false →
  all_dots stem = false →
  splitext (dir +:+ stem +:+ String "." e) = (dir +:+ stem, String "." e).
Proof.
  intros Hdir Hs He1 He2 Hd.
  set (p := dir +:+ stem +:+ String "." e).
  assert (Hdot : rfind "." p = Z.of_nat (String.length (dir +:+ stem))).
  { unfold p. rewrite <- sapp_assoc. by apply rfind_last. }
  assert (Hsep : rfind "/" p = Z.of_nat (String.length dir) - 1).
  { assert (Ht : occurs "/" (stem +:+ String "." e) = false).
    { by rewrite occurs_app, occurs_cons, Hs, He1. }
    destruct Hdir as [->|Hdir].
    - unfold p. rewrite sapp_nil_l. by rewrite rfind_absent.
    - assert (∃ a, dir = a +:+ "/") as [a ->].
      { clear -Hdir. induction dir as [|x dir IH]; [done|].
        destruct dir as [|y dir].
        - simpl in Hdir. apply Ascii.eqb_eq in Hdir as ->. by exists "".
        - destruct (IH Hdir) as [a ->]. by exists (String x a). }
      unfold p. rewrite (sapp_assoc a), sapp_cons, sapp_nil_l.
      rewrite rfind_last by done. rewrite length_sapp. simpl. lia. }
  unfold splitext. fold p. rewrite Hdot, Hsep.
  assert (Hlen : (String.length (dir +:+ stem)
                  = String.length dir + String.length stem)%nat)
    by apply length_sapp.
  assert (Hslice : slice (Z.of_nat (String.length dir) - 1 + 1)
                     (Z.of_nat (String.length (dir +:+ stem))) p = stem).
  { unfold slice. rewrite Hlen.
    replace (Z.to_nat (Z.of_nat (String.length dir) - 1 + 1))
      with (String.length dir) by lia.
    replace (Z.to_nat _) with (String.length stem) by lia.
    unfold p. rewrite substring_skip. apply substring_0_app. }
  rewrite Hslice, Hd.
  destruct (Z.ltb_spec (Z.of_nat (String.length dir) - 1)
              (Z.of_nat (String.length (dir +:+ stem)))) as [_|Hlt];
    [|rewrite Hlen in Hlt; lia].
  simpl andb. cbv iota. f_equal.
  - unfold slice. rewrite Z.sub_0_r, Nat2Z.id. simpl Z.to_nat.
    unfold p. rewrite <- sapp_assoc. apply substring_0_app.
  - unfold slice. rewrite Nat2Z.id. unfold p at 2. rewrite <- sapp_assoc.
    rewrite substring_skip.
    replace (Z.to_nat _) with (String.length (String "." e)).
    + apply substring_all.
    + unfold p. rewrite <- sapp_assoc, length_sapp. lia.
Qed.

(** A path without an extension: no dot in the last component, or only
    dots before the last one. *)
Lemma splitext_without_ext (dir base : string) :
  dir = "" ∨ endswith_sep dir = true →
  occurs "/" base = false →
  occurs "." base = false
  ∨ (∃ dots e, base = dots +:+ String "." e ∧ all_dots dots = true
               ∧ occurs "." e = false) →
  splitext (dir +:+ base) = (dir +:+ base, "").
Proof.
  intros Hdir Hs Hb.
  set (p := dir +:+ base).
  assert (Hsep : rfind "/" p = Z.of_nat (String.length dir) - 1).
  { destruct Hdir as [->|Hdir].
    - unfold p. rewrite sapp_nil_l. by rewrite rfind_absent.
    - assert (∃ a, dir = a +:+ "/") as [a ->].
      { clear -Hdir. induction dir as [|x dir IH]; [done|].
        destruct dir as [|y dir].
        - simpl in Hdir. apply Ascii.eqb_eq in Hdir as ->. by exists "".
        - destruct (IH Hdir) as [a ->]. by exists (String x a). }
      unfold p. rewrite (sapp_assoc a), sapp_cons, sapp_nil_l.
      rewrite rfind_last by done. rewrite length_sapp. simpl. lia. }
  unfold splitext. fold p. rewrite Hsep.
  destruct Hb as [Hb|(dots & e & Hbase & Hdots & He)].
  - assert (Hle : rfind "." p <= Z.of_nat (String.length dir) - 1).
    { destruct (rfind_from_cases "." dir 0 (-1)) as [[H Hn]|(a & b & -> & Hb' & H)].
      - unfold p. rewrite rfind_absent; [lia|]. by rewrite occurs_app, Hn, Hb.
      - unfold p. rewrite sapp_assoc, sapp_cons.
        rewrite rfind_last by (by rewrite occurs_app, Hb', Hb).
        rewrite length_sapp. simpl. lia. }
    destruct (Z.ltb_spec (Z.of_nat (String.length dir) - 1) (rfind "." p)); [lia|done].
  - assert (Hdot : rfind "." p = Z.of_nat (String.length (dir +:+ dots))).
    { unfold p. rewrite Hbase, <- sapp_assoc. by apply rfind_last. }
    rewrite Hdot.
    assert (Hslice : slice (Z.of_nat (String.length dir) - 1 + 1)
                       (Z.of_nat (String.length (dir +:+ dots))) p = dots).
    { unfold slice. rewrite length_sapp.
      replace (Z.to_nat (Z.of_nat (String.length dir) - 1 + 1))
        with (String.length dir) by lia.
      replace (Z.to_nat _) with (String.length dots) by lia.
      unfold p. rewrite Hbase, substring_skip. apply substring_0_app. }
    rewrite Hslice, Hdots. by rewrite andb_false_r.
Qed.

End SplitextFacts.

Module InputFacts.
Import Str StrFacts Path PathFacts DirFacts SplitextFacts.

Lemma prefix_split (a p : string) : String.prefix a p = true → ∃ r, p = a +:+ r.
Proof.
  revert p. induction a as [|x a IH]; intros p H; [by exists p|].
  destruct p as [|y p]; [done|]. simpl in H.
  destruct (ascii_dec x y) as [->|]; [|done].
  destruct (IH p H) as [r ->]. by exists r.
Qed.

Lemma dir_prefix_split (d : string) : ∃ s, dir_prefix d = d +:+ s.
Proof.
  unfold dir_prefix. destruct (_ || _); [exists ""|by exists "/"].
  by rewrite sapp_nil_r.
Qed.

(** No path in the default output directory is the input path. *)
Lemma under_default_ne (input p : string) :
  under (default_output_dir input) p = true → p ≠ input.
Proof.
  intros H E. apply prefix_split in H as [r Hr].
  destruct (dir_prefix_split (default_output_dir input)) as [s Hs].
  rewrite Hs in Hr. unfold default_output_dir in Hr.
  rewrite E in Hr. rewrite <- (splitext_app input) in Hr at 1.
  rewrite !sapp_assoc in Hr. apply String.app_inj in Hr.
  destruct (splitext_ext input) as [He|[e He]]; rewrite He in Hr; discriminate Hr.
Qed.

End InputFacts.

(** X3: without [--output_dir] a run never touches its input: no call
    on the file system names the input path, and the file at the input
    path is after the run what it was before, whether the recording
    opens or not. *)
Theorem input_file_kept_by_default (rec : Recording) (input : string) (w : World) :
  let final :=
    world_of (main rec {| input_file := input; output_dir := None |} w) in
  files final !! input = files w !! input
  ∧ ∃ events,
      trace final = trace w ++ events
      ∧ Forall (fun e => event_path e ≠ Some input) events.
Proof.
  intros final. set (args := {| input_file := input; output_dir := None |}).
  set (d := default_output_dir input).
  assert (Hne : ∀ p, under d p = true → input ≠ p).
  { intros p H E. by apply (InputFacts.under_default_ne input p). }
  split.
  - unfold final. destruct (decide (open_status rec = SUCCESS)) as [H|H].
    + apply (RunFacts.success_other rec args w H).
      * apply Hne. rewrite PathFacts.times_path. apply DirFacts.under_relative.
      * apply Hne. rewrite PathFacts.calib_path. apply DirFacts.under_relative.
      * intros i _. split; apply Hne.
        -- rewrite PathFacts.image_0_path. apply DirFacts.under_relative.
        -- rewrite PathFacts.image_1_path. apply DirFacts.under_relative.
    + unfold main. rewrite MainFacts.failure_outcome by done. cbn [world_of files].
      apply lookup_insert_ne. apply not_eq_sym, Hne.
      change (resolve_output_dir (input_file args) (output_dir args)) with d.
      rewrite PathFacts.times_path. apply DirFacts.under_relative.
  - destruct (DirFacts.run_touches_only rec args w) as (events & Ht & Hu & _).
    exists events. split; [done|].
    eapply Forall_impl; [apply Hu|]. simpl. intros e He E.
    by apply (Hne input (He input E)).
Qed.

(** X13: the default output directory of a path.  The extension that is
    dropped is what follows the last dot of the last component, provided
    something other than dots precedes that dot there: dots in the names
    of the directories are kept, and so is the whole name of a file
    without a dot or with leading dots only. *)
Theorem default_output_dir_of_path :
  (∀ dir stem e,
     dir = "" ∨ Path.endswith_sep dir = true →
     Str.occurs "/" stem = false → Str.occurs "/" e = false →
     Str.occurs "." e = false → Path.all_dots stem = false →
     resolve_output_dir (dir +:+ stem +:+ String "." e) None
     = dir +:+ stem +:+ "_kitti_dataset")
  ∧ (∀ dir base,
       dir = "" ∨ Path.endswith_sep dir = true →
       Str.occurs "/" base = false →
       Str.occurs "." base = false
       ∨ (∃ dots e, base = dots +:+ String "." e ∧ Path.all_dots dots = true
                    ∧ Str.occurs "." e = false) →
       resolve_output_dir (dir +:+ base) None
       = dir +:+ base +:+ "_kitti_dataset").
Proof.
  split.
  - intros dir stem e H1 H2 H3 H4 H5. simpl. unfold default_output_dir.
    rewrite SplitextFacts.splitext_with_ext by done. simpl.
    by rewrite StrFacts.sapp_assoc.
  - intros dir base H1 H2 H3. simpl. unfold default_output_dir.
    rewrite SplitextFacts.splitext_without_ext by done. simpl.
    by rewrite StrFacts.sapp_assoc.
Qed.

Lemma default_output_dir_of_path_witness :
  resolve_output_dir "/data.v2/run.1.svo" None = "/data.v2/run.1_kitti_dataset"
  ∧ resolve_output_dir "/data.v2/.hidden" None = "/data.v2/.hidden_kitti_dataset"
  ∧ resolve_output_dir "/data.v2/run1" None = "/data.v2/run1_kitti_dataset".
Proof.
  destruct default_output_dir_of_path as [H1 H2].
  split; [|split].
  - apply (H1 "/data.v2/" "run.1" "svo"); (by right) || reflexivity.
  - apply (H2 "/data.v2/" ".hidden"); [by right|reflexivity|].
    right. exists "", "hidden". by repeat split.
  - apply (H2 "/data.v2/" "run1"); [by right|reflexivity|]. by left.
Defined.

Module FootprintFacts.
Import Str StrFacts Path PathFacts LoopFacts MainFacts.

(** The image paths for the frames numbered [n], ..., [n + K - 1]. *)
Lemma elem_of_image_paths_from (d p : string) (n K : nat) :
  p ∈ flat_map (fun N => [join (join d "image_0") (image_name (N.of_nat N));
                          join (join d "image_1") (image_name (N.of_nat N))])
        (seq n K)
  ↔ ∃ i, (n <= i < n + K)%nat
         ∧ (p = join (join d "image_0") (image_name (N.of_nat i))
            ∨ p = join (join d "image_1") (image_name (N.of_nat i))).
Proof.
  rewrite list_elem_of_In, in_flat_map. split.
  - intros (i & Hi & Hp). apply in_seq in Hi. exists i. split; [lia|].
    simpl in Hp. destruct Hp as [<-|[<-|[]]]; auto.
  - intros (i & Hi & Hp). exists i. split; [apply in_seq; lia|].
    simpl. destruct Hp as [->| ->]; auto.
Qed.

Lemma image_paths_NoDup (d : string) (n K : nat) :
  NoDup (flat_map (fun N => [join (join d "image_0") (image_name (N.of_nat N));
                             join (join d "image_1") (image_name (N.of_nat N))])
           (seq n K)).
Proof.
  revert n. induction K as [|K IH]; intros n; [constructor|].
  simpl. constructor; [|constructor; [|apply IH]].
  - rewrite not_elem_of_cons. split; [apply image_0_ne_image_1|].
    rewrite elem_of_image_paths_from. intros (i & Hi & [E|E]).
    + apply image_0_inj in E. lia.
    + by apply image_0_ne_image_1 in E.
  - rewrite elem_of_image_paths_from. intros (i & Hi & [E|E]).
    + symmetry in E. by apply image_0_ne_image_1 in E.
    + apply image_1_inj in E. lia.
Qed.

Lemma written_paths_NoDup (d : string) (K : nat) :
  NoDup (written_paths d K) ∧ length (written_paths d K) = (2 * K + 2)%nat.
Proof.
  unfold written_paths, image_paths. split.
  - constructor; [|constructor; [|apply image_paths_NoDup]].
    + rewrite not_elem_of_cons. split; [apply times_ne_calib|].
      rewrite elem_of_image_paths_from. intros (i & _ & [E|E]).
      * symmetry in E. by apply image_0_ne_times in E.
      * symmetry in E. by apply image_1_ne_times in E.
    + rewrite elem_of_image_paths_from. intros (i & _ & [E|E]).
      * symmetry in E. by apply image_0_ne_calib in E.
      * symmetry in E. by apply image_1_ne_calib in E.
  - assert (H : ∀ n, length
             (flat_map (fun N => [join (join d "image_0") (image_name (N.of_nat N));
                                  join (join d "image_1") (image_name (N.of_nat N))])
                (seq n K)) = (2 * K)%nat).
    { induction K as [|K IH]; intros n; [done|].
      cbn [seq flat_map]. rewrite length_app, IH. simpl. lia. }
    cbn [length]. rewrite H. lia.
Qed.

Lemma export_loop_dom (d : string) rs (n : nat) w :
  dom (files (export_loop (join d "image_0") (join d "image_1")
                (join d "times.txt") rs (N.of_nat n) w).2)
  = dom (files w)
    ∪ list_to_set
        (flat_map (fun N => [join (join d "image_0") (image_name (N.of_nat N));
                             join (join d "image_1") (image_name (N.of_nat N))])
           (seq n (length (successes rs))))
    ∪ (if decide (successes rs = []) then ∅ else {[join d "times.txt"]}).
Proof.
  revert n w. induction rs as [|[st f] rs IH]; intros n w.
  - simpl. apply set_eq. intros x.
    rewrite !elem_of_union, ?elem_of_list_to_set, ?elem_of_nil, ?elem_of_empty.
    tauto.
  - simpl export_loop. destruct (decide (st = SUCCESS)) as [->|Hst].
    + replace (N.of_nat n + 1)%N with (N.of_nat (S n)) by lia.
      rewrite IH. cbn [files file_write imwrite log].
      rewrite !dom_insert_L. simpl successes. simpl length. simpl seq.
      simpl flat_map. rewrite !list_to_set_cons.
      destruct (decide (f :: successes rs = [])) as [|_]; [done|].
      apply set_eq. intros x. destruct (decide (successes rs = []));
        rewrite !elem_of_union, ?elem_of_singleton, ?elem_of_empty; tauto.
    + assert (E : successes ((st, f) :: rs) = []) by (by destruct st).
      rewrite E. simpl. apply set_eq. intros x.
      rewrite !elem_of_union, ?elem_of_list_to_set, ?elem_of_nil, ?elem_of_empty.
      tauto.
Qed.

End FootprintFacts.

(** X4: the files a run leaves are those it found and those it writes,
    no file is removed.  When the recording opens and [K] frames are
    exported, the paths written are [times.txt], [calib.txt] and the [2 K]
    images, all different: [2 K + 2] files; when the recording does not
    open, [times.txt] alone. *)
Theorem files_left_by_run (rec : Recording) (args : Args) (w : World) :
  let d := resolve_output_dir (input_file args) (output_dir args) in
  let K := length (successes (grabs rec)) in
  let final := world_of (main rec args w) in
  dom (files w) ⊆ dom (files final)
  ∧ (open_status rec = SUCCESS →
       dom (files final) = dom (files w) ∪ list_to_set (written_paths d K))
  ∧ (open_status rec ≠ SUCCESS →
       dom (files final) = dom (files w) ∪ {[Path.join d "times.txt"]})
  ∧ NoDup (written_paths d K)
  ∧ length (written_paths d K) = (2 * K + 2)%nat.
Proof.
  intros d K final.
  assert (Hs : open_status rec = SUCCESS →
               dom (files final) = dom (files w) ∪ list_to_set (written_paths d K)).
  { intros H. unfold final, main. rewrite MainFacts.success_outcome by done.
    cbn [world_of files]. rewrite dom_insert_L. unfold after_loop.
    rewrite (FootprintFacts.export_loop_dom _ (grabs rec) 0).
    cbn [before_loop files]. rewrite dom_insert_L.
    unfold written_paths, image_paths. fold d K. rewrite !list_to_set_cons.
    apply set_eq. intros x.
    destruct (decide (successes (grabs rec) = []));
      rewrite !elem_of_union, ?elem_of_singleton, ?elem_of_empty; tauto. }
  assert (Hf : open_status rec ≠ SUCCESS →
               dom (files final) = dom (files w) ∪ {[Path.join d "times.txt"]}).
  { intros H. unfold final, main. rewrite MainFacts.failure_outcome by done.
    cbn [world_of files]. rewrite dom_insert_L. fold d.
    apply set_eq. intros x. rewrite !elem_of_union. tauto. }
  split.
  { destruct (decide (open_status rec = SUCCESS)) as [H|H].
    - rewrite (Hs H). apply union_subseteq_l.
    - rewrite (Hf H). apply union_subseteq_l. }
  split; [done|]. split; [done|]. apply FootprintFacts.written_paths_NoDup.
Qed.

(** X5: a run does not clean the image directories.  The images numbered
    from the frame count on, left for instance by an earlier run on a
    longer recording, are after the run what they were before, so that
    the directories can hold more images than [times.txt] has lines. *)
Theorem later_images_kept (rec : Recording) (args : Args) (w : World) (N : nat) :
  (length (successes (grabs rec)) <= N)%nat →
  let d := resolve_output_dir (input_file args) (output_dir args) in
  let final := world_of (main rec args w) in
  files final !! Path.join (Path.join d "image_0") (image_name (N.of_nat N))
  = files w !! Path.join (Path.join d "image_0") (image_name (N.of_nat N))
  ∧ files final !! Path.join (Path.join d "image_1") (image_name (N.of_nat N))
    = files w !! Path.join (Path.join d "image_1") (image_name (N.of_nat N)).
Proof.
  intros HN d final. unfold final.
  destruct (decide (open_status rec = SUCCESS)) as [H|H].
  - split; apply (RunFacts.success_other rec args w H).
    + apply PathFacts.image_0_ne_times.
    + apply PathFacts.image_0_ne_calib.
    + intros i Hi. split; [|apply PathFacts.image_0_ne_image_1].
      intros E%PathFacts.image_0_inj. lia.
    + apply PathFacts.image_1_ne_times.
    + apply PathFacts.image_1_ne_calib.
    + intros i Hi. split; [apply not_eq_sym, PathFacts.image_0_ne_image_1|].
      intros E%PathFacts.image_1_inj. lia.
  - unfold main. rewrite MainFacts.failure_outcome by done. cbn [world_of files].
    split; apply lookup_insert_ne, not_eq_sym.
    + apply PathFacts.image_0_ne_times.
    + apply PathFacts.image_1_ne_times.
Qed.

Lemma later_images_kept_witness :
  let stale := <["/data/run1_kitti_dataset/image_0/000005.png" := Png [[[Byte.x09]]]]>
                 (∅ : gmap string Content) in
  let w := {| dirs := ∅; files := stale; trace := [] |} in
  (length (successes (grabs Examples.rec0)) <= 5)%nat
  ∧ files (world_of (main Examples.rec0 Examples.args0 w))
      !! "/data/run1_kitti_dataset/image_0/000005.png"
    = Some (Png [[[Byte.x09]]]).
Proof.
  intros stale w.
  assert (H : (length (successes (grabs Examples.rec0)) <= 5)%nat) by (simpl; lia).
  split; [exact H|].
  exact (proj1 (later_images_kept Examples.rec0 Examples.args0 w 5 H)).
Defined.

Module NameFacts.
Import Str StrFacts Fmt FmtFacts DigitsFacts.

Lemma of_uint_acc_lt (d : Decimal.uint) (acc : positive) :
  (N.pos (Pos.of_uint_acc d acc) + 1
   <= (N.pos acc + 1) * 10 ^ N.of_nat (Decimal.nb_digits d))%N.
Proof.
  revert acc. induction d; intros acc; simpl Decimal.nb_digits;
    [simpl; lia|..];
    rewrite Nat2N.inj_succ, N.pow_succ_r';
    simpl Pos.of_uint_acc;
    (etrans; [apply IHd|]);
    rewrite N.mul_assoc; apply N.mul_le_mono_r; lia.
Qed.

Lemma of_uint_lt (d : Decimal.uint) :
  (Pos.of_uint d < 10 ^ N.of_nat (Decimal.nb_digits d))%N.
Proof.
  induction d; simpl Decimal.nb_digits;
    [simpl; lia|
     rewrite Nat2N.inj_succ, N.pow_succ_r'; simpl Pos.of_uint; lia|..];
    rewrite Nat2N.inj_succ, N.pow_succ_r'; simpl Pos.of_uint;
    match goal with
    | |- (N.pos (Pos.of_uint_acc ?l ?k) < _)%N =>
        pose proof (of_uint_acc_lt l k)
    end; lia.
Qed.

(** A number written with [k] digits is below [10^k]. *)
Lemma dec_lt (n : N) : (n < 10 ^ N.of_nat (String.length (dec n)))%N.
Proof.
  unfold dec. destruct n as [|p]; [simpl; lia|]. simpl N.to_uint.
  pose proof (of_uint_lt (Pos.to_uint p)) as H.
  rewrite DecimalPos.Unsigned.of_to in H.
  pose proof (DecimalPos.Unsigned.to_uint_nonnil p) as Hd.
  unfold NilZero.string_of_uint.
  destruct (Pos.to_uint p) eqn:E; [done|..];
    rewrite <- E in *; by rewrite length_string_of_uint.
Qed.

Lemma format_06d_large (n : N) :
  (1000000 <= n)%N →
  format_06d n = dec n ∧ (7 <= String.length (format_06d n))%nat.
Proof.
  intros H. pose proof (dec_lt n) as Hn.
  assert (Hl : (7 <= String.length (dec n))%nat).
  { destruct (decide (7 <= String.length (dec n))%nat); [done|]. exfalso.
    assert (10 ^ N.of_nat (String.length (dec n)) <= 10 ^ 6)%N
      by (apply N.pow_le_mono_r; lia).
    lia. }
  unfold format_06d, zfill.
  replace (6 - String.length (dec n))%nat with 0%nat by lia.
  split; [done|]. by rewrite sapp_nil_l.
Qed.

Lemma parse_format_06d (n : N) : parse (format_06d n) = Some n.
Proof. unfold format_06d, zfill. by rewrite parse_zeros, parse_dec. Qed.

End NameFacts.

(** X6: the name of an image tells its frame number.  Reading the digits
    of [{N:06d}] as a decimal number gives [N] back; the name has
    exactly six digits for the first million frames, and from frame
    1000000 on it is the plain decimal of [N], seven digits or more,
    without padding. *)
Theorem image_name_round_trip (n : N) :
  Fmt.parse (Fmt.format_06d n) = Some n
  ∧ Str.all_digits (Fmt.format_06d n) = true
  ∧ image_name n = Fmt.format_06d n +:+ ".png"
  ∧ ((n < 1000000)%N → String.length (Fmt.format_06d n) = 6%nat)
  ∧ ((1000000 <= n)%N →
       Fmt.format_06d n = Fmt.dec n
       ∧ (7 <= String.length (Fmt.format_06d n))%nat).
Proof.
  split; [apply NameFacts.parse_format_06d|].
  split; [apply FmtFacts.all_digits_format_06d|]. split; [done|].
  split; [apply DigitsFacts.format_06d_length|apply NameFacts.format_06d_large].
Qed.

Lemma image_name_round_trip_witness :
  Fmt.format_06d 999999 = "999999" ∧ Fmt.format_06d 1000000 = "1000000"
  ∧ String.length (Fmt.format_06d 41) = 6%nat
  ∧ (7 <= String.length (Fmt.format_06d 1000000))%nat.
Proof.
  split; [reflexivity|]. split; [reflexivity|].
  destruct (image_name_round_trip 41) as (_ & _ & _ & H1 & _).
  destruct (image_name_round_trip 1000000) as (_ & _ & _ & _ & H2).
  split; [apply H1; reflexivity|].
  apply H2. discriminate.
Defined.

Module SignFacts.
Import Str StrFacts Fmt FmtFacts RoundFacts.

(** Rounding keeps the sign it is given. *)
Lemma binary_round_aux_sign (prec emax : Z) (s : bool) (m e : Z) (l : location) :
  0 <= m → sign_bit (binary_round_aux prec emax s m e l) = Some s.
Proof.
  intros Hm. unfold binary_round_aux, shr_fexp.
  set (n1 := fexp prec emax (Zdigits2 m + e) - e).
  pose proof (shr_spec (shr_record_of_loc m l) e n1) as H1.
  rewrite shr_m_of_loc in H1. specialize (H1 Hm).
  destruct (shr (shr_record_of_loc m l) e n1) as [r1 e1].
  simpl in H1. destruct H1 as (H1m & _ & _).
  pose proof (round_nearest_even_bounds (shr_m r1) (loc_of_shr_record r1) H1m)
    as [H2m _].
  set (m2 := round_nearest_even (shr_m r1) (loc_of_shr_record r1)) in *.
  set (n2 := fexp prec emax (Zdigits2 m2 + e1) - e1).
  pose proof (shr_spec (shr_record_of_loc m2 loc_Exact) e1 n2) as H3.
  rewrite shr_m_of_loc in H3. specialize (H3 H2m).
  destruct (shr (shr_record_of_loc m2 loc_Exact) e1 n2) as [r3 e3].
  simpl in H3. destruct H3 as (H3m & _ & _).
  destruct (shr_m r3) as [|p|p]; simpl; [done| |lia].
  by destruct (e3 <=? emax - prec).
Qed.

Lemma starts_with_minus_format_f (p : nat) (x : spec_float) (s : bool) :
  sign_bit x = Some s → starts_with_minus (format_f p x) = s.
Proof.
  assert (Hfp : ∀ q, starts_with_minus (fixed_point p q) = false).
  { intros q. destruct (fixed_point_shape p q) as (i & f & -> & Hi & Di & _).
    destruct i as [|a i]; [done|]. rewrite sapp_cons. simpl in *.
    apply andb_prop in Di as [Da _].
    destruct (Ascii.eqb_spec a "-") as [->|]; done. }
  destruct x as [s'|s'| |s' m e]; intros [= <-]; simpl;
    destruct s'; try done; rewrite sapp_nil_l; apply Hfp.
Qed.

Lemma tx_of_sign (fx_left baseline : spec_float) :
  Float64.is_finite fx_left = true → Float64.is_finite baseline = true →
  ∃ sx sb,
    sign_bit fx_left = Some sx ∧ sign_bit baseline = Some sb
    ∧ sign_bit (tx_of fx_left baseline) = Some (negb (xorb sx sb)).
Proof.
  intros Hx Hb. unfold tx_of, Float64.mul, Float64.neg.
  destruct fx_left as [sx|sx| |sx mx ex]; try done;
    destruct baseline as [sb|sb| |sb mb eb]; try done;
    exists sx, sb; (split; [done|]); (split; [done|]); simpl SFmul; simpl SFopp;
    rewrite ?binary_round_aux_sign by lia; simpl; by destruct sx, sb.
Qed.

End SignFacts.

(** X7: the sign of the translation written to [calib.txt].  For finite
    [fx_left] and [baseline] the value [tx = -fx_left * baseline] is a
    number or an infinity, never a NaN, and its sign is the opposite of
    the sign of the product: when [fx_left] and [baseline] have the same
    sign the fourth value of the line of P1 begins with [-], also when
    the product is zero ([-0.000000000] for a baseline of zero), and when
    their signs differ it does not. *)
Theorem tx_sign_opposite_to_product
    (rec : Recording) (args : Args) (w : World) :
  open_status rec = SUCCESS →
  let c := calibration_parameters rec in
  Float64.is_finite (fx (left_cam c)) = true →
  Float64.is_finite (baseline_of c) = true →
  let d := resolve_output_dir (input_file args) (output_dir args) in
  ∃ sx sb text l0 l1 v,
    sign_bit (fx (left_cam c)) = Some sx
    ∧ sign_bit (baseline_of c) = Some sb
    ∧ sign_bit (Float64.mul (Float64.neg (fx (left_cam c))) (baseline_of c))
      = Some (negb (xorb sx sb))
    ∧ files (world_of (main rec args w)) !! Path.join d "calib.txt" = Some (Text text)
    ∧ Str.lines text = Some [l0; l1]
    ∧ tail (Str.split_on " " l1) !! 3%nat = Some v
    ∧ starts_with_minus v = negb (xorb sx sb).
Proof.
  intros H c Hx Hb d.
  destruct (SignFacts.tx_of_sign _ _ Hx Hb) as (sx & sb & H1 & H2 & H3).
  exists sx, sb. eexists _, _, _, _.
  split; [done|]. split; [done|]. split; [exact H3|].
  split; [by apply RunFacts.success_calib|].
  split; [apply CalibFacts.calib_text_lines|].
  rewrite CalibFacts.P1_line_tokens. split; [reflexivity|].
  by apply SignFacts.starts_with_minus_format_f.
Qed.

Lemma tx_sign_opposite_to_product_witness :
  let c := {| left_cam := Examples.cam0; right_cam := Examples.cam0;
              stereo_transform_translation :=
                (S754_zero false, S754_zero false, S754_zero false) |} in
  let rec := {| open_status := SUCCESS; calibration_parameters := c;
                grabs := [] |} in
  open_status rec = SUCCESS
  ∧ Float64.is_finite (fx (left_cam c)) = true
  ∧ Float64.is_finite (baseline_of c) = true
  ∧ ∃ text l0 l1,
      files (world_of (main rec Examples.args0 Examples.empty_world))
        !! "/data/run1_kitti_dataset/calib.txt" = Some (Text text)
      ∧ Str.lines text = Some [l0; l1]
      ∧ tail (Str.split_on " " l1) !! 3%nat = Some "-0.000000000".
Proof.
  intros c rec.
  split; [reflexivity|]. split; [reflexivity|]. split; [reflexivity|].
  destruct (tx_sign_opposite_to_product rec Examples.args0 Examples.empty_world
              eq_refl eq_refl eq_refl)
    as (sx & sb & text & l0 & l1 & v & _ & _ & _ & H4 & H5 & H6 & _).
  exists text, l0, l1. split; [exact H4|]. split; [exact H5|].
  assert (E : Str.lines text
              = Str.lines (text_of (files (world_of
                  (main rec Examples.args0 Examples.empty_world))
                  !! "/data/run1_kitti_dataset/calib.txt"))).
  { change (Path.join _ "calib.txt") with "/data/run1_kitti_dataset/calib.txt" in H4.
    by rewrite H4. }
  rewrite H5 in E. vm_compute in E. injection E as -> ->. reflexivity.
Defined.

Module PrefixFacts.
Import Str StrFacts.

Lemma times_text_app (a b : list Frame) :
  times_text (a ++ b) = times_text a +:+ times_text b.
Proof.
  induction a as [|f a IH]; [done|]. simpl. by rewrite IH, sapp_assoc.
Qed.

End PrefixFacts.

(** X10: a recording that fails earlier gives the beginning of the same
    dataset.  When the frames one recording yields before its first
    failure are the first frames another one yields, every image of the
    run on the first is the same file in the run on the second, and the
    [times.txt] of the first is the beginning of the [times.txt] of the
    second, line by line. *)
Theorem shorter_recording_gives_prefix
    (rec1 rec2 : Recording) (args : Args) (w : World) :
  open_status rec1 = SUCCESS → open_status rec2 = SUCCESS →
  successes (grabs rec1) `prefix_of` successes (grabs rec2) →
  let d := resolve_output_dir (input_file args) (output_dir args) in
  let final1 := world_of (main rec1 args w) in
  let final2 := world_of (main rec2 args w) in
  (∀ N, (N < length (successes (grabs rec1)))%nat →
     is_Some (files final1
                !! Path.join (Path.join d "image_0") (image_name (N.of_nat N)))
     ∧ files final1 !! Path.join (Path.join d "image_0") (image_name (N.of_nat N))
       = files final2 !! Path.join (Path.join d "image_0") (image_name (N.of_nat N))
     ∧ files final1 !! Path.join (Path.join d "image_1") (image_name (N.of_nat N))
       = files final2 !! Path.join (Path.join d "image_1") (image_name (N.of_nat N)))
  ∧ ∃ text1 text2 rest lines1 lines2,
      files final1 !! Path.join d "times.txt" = Some (Text text1)
      ∧ files final2 !! Path.join d "times.txt" = Some (Text text2)
      ∧ text2 = text1 +:+ rest
      ∧ Str.lines text1 = Some lines1 ∧ Str.lines text2 = Some lines2
      ∧ lines1 `prefix_of` lines2.
Proof.
  intros H1 H2 [more Hp] d final1 final2. split.
  - intros N HN. apply lookup_lt_is_Some_2 in HN as [f Hf].
    assert (Hf2 : successes (grabs rec2) !! N = Some f).
    { rewrite Hp. by apply lookup_app_l_Some. }
    destruct (RunFacts.success_images rec1 args w H1 N f Hf) as [E1 E2].
    destruct (RunFacts.success_images rec2 args w H2 N f Hf2) as [E3 E4].
    fold d final1 in E1, E2. fold d final2 in E3, E4.
    split; [by rewrite E1|]. split; congruence.
  - exists (times_text (successes (grabs rec1))),
      (times_text (successes (grabs rec2))), (times_text more),
      (map seconds_9f (successes (grabs rec1))),
      (map seconds_9f (successes (grabs rec2))).
    split; [by apply RunFacts.success_times|].
    split; [by apply RunFacts.success_times|].
    split; [by rewrite Hp, PrefixFacts.times_text_app|].
    split; [apply TimesFacts.lines_times_text|].
    split; [apply TimesFacts.lines_times_text|].
    rewrite Hp, map_app. by eexists.
Qed.

Lemma shorter_recording_gives_prefix_witness :
  let rec1 := {| open_status := SUCCESS;
                 calibration_parameters := Examples.calib0;
                 grabs := [(SUCCESS, Examples.frame0 1000000000);
                           (FAILURE, Examples.frame0 0)] |} in
  open_status rec1 = SUCCESS ∧ open_status Examples.rec0 = SUCCESS
  ∧ successes (grabs rec1) `prefix_of` successes (grabs Examples.rec0)
  ∧ files (world_of (main rec1 Examples.args0 Examples.empty_world))
      !! "/data/run1_kitti_dataset/image_0/000000.png"
    = files (world_of (main Examples.rec0 Examples.args0 Examples.empty_world))
        !! "/data/run1_kitti_dataset/image_0/000000.png".
Proof.
  intros rec1.
  assert (Hp : successes (grabs rec1) `prefix_of` successes (grabs Examples.rec0)).
  { exists [Examples.frame0 1033333333]. reflexivity. }
  split; [reflexivity|]. split; [reflexivity|]. split; [exact Hp|].
  destruct (shorter_recording_gives_prefix rec1 Examples.rec0 Examples.args0
              Examples.empty_world eq_refl eq_refl Hp) as [H _].
  destruct (H 0%nat) as (_ & E & _); [simpl; lia|]. exact E.
Defined.

Module SecondsFacts.
Import Str StrFacts Fmt FmtFacts RoundFacts SignFacts.

Lemma of_int_sign (n : Z) : 0 <= n → sign_bit (Float64.of_int n) = Some false.
Proof.
  intros H. unfold Float64.of_int, binary_normalize.
  destruct n as [|p|p]; [done| |lia]. unfold binary_round.
  destruct (shl_align p 0 _) as [mz ez].
  by apply binary_round_aux_sign.
Qed.

Lemma seconds_sign (ts : Z) :
  0 <= ts < 2 ^ 64 →
  sign_bit (Float64.mul (Float64.of_int ts) (Float64.of_decimal 1 9)) = Some false.
Proof.
  intros H. pose proof (of_int_sign ts ltac:(lia)) as Hs.
  pose proof (of_int_finite ts H) as Hf.
  replace (Float64.of_decimal 1 9) with (S754_finite false 4835703278458517 (-82))
    by (by vm_compute).
  destruct (Float64.of_int ts) as [s|s| |s m e]; try done; simpl in Hs;
    injection Hs as ->; [done|].
  unfold Float64.mul. simpl SFmul. by apply binary_round_aux_sign.
Qed.

(** A value written in fixed-point notation without a sign is digits, a
    point and digits. *)
Lemma unsigned_fixed (p : nat) (x : spec_float) :
  Float64.is_finite x = true → sign_bit x = Some false →
  ∃ i f, format_f p x = i +:+ String "." f ∧ i ≠ ""
         ∧ all_digits i = true ∧ all_digits f = true ∧ String.length f = p.
Proof.
  intros Hf Hs. destruct x as [s|s| |s m e]; try done;
    injection Hs as ->; simpl; rewrite sapp_nil_l; apply fixed_point_shape.
Qed.

End SecondsFacts.

(** X8: the lines of [times.txt] are unsigned decimal numbers.  For
    every timestamp of 64 bits the line written is one or more digits, a
    point and exactly nine digits, and a newline: never a sign, an
    exponent, [inf] or [nan]. *)
Theorem timestamp_lines_unsigned (rec : Recording) (args : Args) (w : World) :
  open_status rec = SUCCESS →
  Forall (fun f => 0 <= timestamp_ns f IMAGE < 2 ^ 64) (successes (grabs rec)) →
  let d := resolve_output_dir (input_file args) (output_dir args) in
  ∃ text lines,
    files (world_of (main rec args w)) !! Path.join d "times.txt" = Some (Text text)
    ∧ Str.lines text = Some lines
    ∧ length lines = length (successes (grabs rec))
    ∧ Forall (fun line =>
                ∃ i f, line = i +:+ String "." f ∧ i ≠ ""
                       ∧ Str.all_digits i = true ∧ Str.all_digits f = true
                       ∧ String.length f = 9%nat)
        lines.
Proof.
  intros H Hts d.
  exists (times_text (successes (grabs rec))),
    (map seconds_9f (successes (grabs rec))).
  split; [by apply RunFacts.success_times|].
  split; [apply TimesFacts.lines_times_text|].
  split; [apply length_map|].
  apply Forall_fmap. eapply Forall_impl; [apply Hts|].
  simpl. intros f Hf. apply SecondsFacts.unsigned_fixed.
  - by apply RoundFacts.seconds_finite.
  - by apply SecondsFacts.seconds_sign.
Qed.

Lemma timestamp_lines_unsigned_witness :
  open_status Examples.rec0 = SUCCESS
  ∧ Forall (fun f => 0 <= timestamp_ns f IMAGE < 2 ^ 64)
      (successes (grabs Examples.rec0))
  ∧ ∃ text lines,
      files (world_of (main Examples.rec0 Examples.args0 Examples.empty_world))
        !! "/data/run1_kitti_dataset/times.txt" = Some (Text text)
      ∧ Str.lines text = Some lines
      ∧ length lines = 2%nat.
Proof.
  assert (H : Forall (fun f => 0 <= timestamp_ns f IMAGE < 2 ^ 64)
                (successes (grabs Examples.rec0))).
  { repeat constructor; simpl; lia. }
  split; [reflexivity|]. split; [exact H|].
  destruct (timestamp_lines_unsigned Examples.rec0 Examples.args0
              Examples.empty_world eq_refl H) as (text & lines & H1 & H2 & H3 & _).
  exists text, lines. split; [exact H1|]. split; [exact H2|exact H3].
Defined.

(** X12: a recording without a frame.  When the first [grab] does not
    return [SUCCESS], for the end of the file or for an error, the run
    still ends with exit code 0: it leaves an empty [times.txt] and
    [calib.txt], writes no image, calls [grab] once and reports 0
    frames. *)
Theorem no_frame_exported (rec : Recording) (args : Args) (w : World) :
  open_status rec = SUCCESS → successes (grabs rec) = [] →
  let d := resolve_output_dir (input_file args) (output_dir args) in
  let o := main rec args w in
  exit_code o = 0
  ∧ files (world_of o)
    = <[Path.join d "calib.txt" := Text (calib_text (calibration_parameters rec))]>
        (<[Path.join d "times.txt" := Text ""]> (files w))
  ∧ ∃ events,
      trace (world_of o) = trace w ++ events
      ∧ count is_grab events = 1%nat
      ∧ count is_imwrite events = 0%nat
      ∧ printed events
        = [OpeningInputFile (input_file args); ExportedFrames 0 d;
           SavedCalibration (Path.join d "calib.txt")].
Proof.
  intros H Hs d o. unfold o, main.
  rewrite MainFacts.success_outcome by done. cbn [exit_code world_of files trace].
  fold d. split; [done|]. split.
  - f_equal. unfold after_loop.
    rewrite (TimesFacts.export_loop_files_successes _ _ _ (grabs rec) []) by done.
    done.
  - eexists. split; [done|]. unfold loop_events. rewrite Hs. done.
Qed.

Lemma no_frame_exported_witness :
  let rec := {| open_status := SUCCESS; calibration_parameters := Examples.calib0;
                grabs := [(CORRUPTED_FRAME, Examples.frame0 7);
                          (SUCCESS, Examples.frame0 8)] |} in
  open_status rec = SUCCESS ∧ successes (grabs rec) = []
  ∧ exit_code (main rec Examples.args0 Examples.empty_world) = 0
  ∧ files (world_of (main rec Examples.args0 Examples.empty_world))
      !! "/data/run1_kitti_dataset/times.txt" = Some (Text "").
Proof.
  intros rec. split; [reflexivity|]. split; [reflexivity|].
  destruct (no_frame_exported rec Examples.args0 Examples.empty_world
              eq_refl eq_refl) as (H1 & H2 & _).
  split; [exact H1|]. rewrite H2. reflexivity.
Defined.

Lemma images_written_without_alpha_witness :
  ∃ events,
    trace (world_of (main Examples.rec0 Examples.args0 Examples.empty_world))
    = events
    ∧ Imwrite "/data/run1_kitti_dataset/image_1/000000.png"
        [[[Byte.x04; Byte.x05; Byte.x06]]] ∈ events
    ∧ channels_at_most 3 [[[Byte.x04; Byte.x05; Byte.x06]]].
Proof.
  destruct (images_written_without_alpha Examples.rec0 Examples.args0
              Examples.empty_world) as (events & Ht & Hall & _).
  exists events. split; [exact Ht|].
  assert (Hin : Imwrite "/data/run1_kitti_dataset/image_1/000000.png"
                  [[[Byte.x04; Byte.x05; Byte.x06]]] ∈ events).
  { change (trace Examples.empty_world ++ events) with events in Ht.
    rewrite <- Ht. vm_compute. do 14 apply list_elem_of_further.
    apply list_elem_of_here. }
  split; [exact Hin|].
  rewrite Forall_forall in Hall.
  exact (proj1 (Hall _ Hin _ _ eq_refl)).
Defined.


Lemma input_file_kept_by_default_witness :
  let svo := <["/data/run1.svo" := Text "recording"]> (∅ : gmap string Content) in
  let w := {| dirs := ∅; files := svo; trace := [] |} in
  files (world_of (main Examples.rec0 Examples.args0 w)) !! "/data/run1.svo"
  = Some (Text "recording").
Proof.
  intros svo w.
  etrans;
    [exact (proj1 (input_file_kept_by_default Examples.rec0 "/data/run1.svo" w))|].
  reflexivity.
Defined.

Lemma files_left_by_run_witness :
  open_status Examples.rec0 = SUCCESS
  ∧ dom (files (world_of (main Examples.rec0 Examples.args0 Examples.empty_world)))
    = list_to_set
        ["/data/run1_kitti_dataset/times.txt";
         "/data/run1_kitti_dataset/calib.txt";
         "/data/run1_kitti_dataset/image_0/000000.png";
         "/data/run1_kitti_dataset/image_1/000000.png";
         "/data/run1_kitti_dataset/image_0/000001.png";
         "/data/run1_kitti_dataset/image_1/000001.png"].
Proof.
  split; [reflexivity|].
  destruct (files_left_by_run Examples.rec0 Examples.args0 Examples.empty_world)
    as (_ & H & _).
  rewrite (H eq_refl).
  change (files Examples.empty_world) with (∅ : gmap string Content).
  set (l := written_paths _ _). vm_compute in l. subst l.
  apply set_eq. intros x.
  rewrite elem_of_union, dom_empty, elem_of_empty. tauto.
Defined.

Lemma calls_counted_witness :
  open_status Examples.rec0 = SUCCESS
  ∧ open_status Examples.rec_bad ≠ SUCCESS
  ∧ count is_grab
      (trace (world_of (main Examples.rec0 Examples.args0 Examples.empty_world)))
    = 3%nat
  ∧ count is_cam_close
      (trace (world_of (main Examples.rec_bad Examples.args0 Examples.empty_world)))
    = 0%nat.
Proof.
  assert (Hb : open_status Examples.rec_bad ≠ SUCCESS) by (simpl; discriminate).
  split; [reflexivity|]. split; [exact Hb|].
  destruct (calls_counted Examples.rec0 Examples.args0 Examples.empty_world)
    as (ev0 & Ht0 & Hs0 & _).
  destruct (calls_counted Examples.rec_bad Examples.args0 Examples.empty_world)
    as (ev1 & Ht1 & _ & Hf1).
  rewrite Ht0, Ht1. split.
  - exact (proj1 (Hs0 eq_refl)).
  - destruct (Hf1 Hb) as (_ & _ & _ & _ & H & _). exact H.
Defined.

